(** * Austin meeting monitor: a shallow embedding of
      [austin_meeting_monitor_gemini.py] and of the listing query of
      [streamlit_dashboard.py], with the properties of its pipeline.

    Python strings are sequences of Unicode code points: a character is the
    number of its code point and a string is a list of characters, so [len]
    is [length], [s[:n]] is [firstn n s] and [s[n:]] is [skipn n s]. *)

From Stdlib Require Import Ascii String Numbers.DecimalString.
From Stdlib Require Import List NArith ZArith Bool Lia PeanoNat.
From Stdlib Require Import Sorting.Permutation Sorting.Sorted.
Import ListNotations.

Open Scope N_scope.
Open Scope list_scope.

Definition char := N.
Definition str := list char.

(** An ASCII literal of the source as a string of code points. *)
Definition py (s : string) : str := map N_of_ascii (list_ascii_of_string s).

Definition LF : char := 10.

Definition char_eqb (a b : char) : bool := N.eqb a b.

Fixpoint str_eqb (a b : str) : bool :=
  match a, b with
  | [], [] => true
  | x :: a', y :: b' => char_eqb x y && str_eqb a' b'
  | _, _ => false
  end.

(** [s.startswith(p)] *)
Fixpoint startswith (p s : str) : bool :=
  match p, s with
  | [], _ => true
  | x :: p', y :: s' => char_eqb x y && startswith p' s'
  | _ :: _, [] => false
  end.

(** [s.endswith(p)] *)
Definition endswith (p s : str) : bool := startswith (rev p) (rev s).

(** [p in s] for strings: some suffix of [s] starts with [p]. *)
Fixpoint contains (p s : str) : bool :=
  startswith p s || match s with [] => false | _ :: s' => contains p s' end.

(** The longest prefix of [s] whose characters satisfy [f], and the rest. *)
Fixpoint span (f : char -> bool) (s : str) : str * str :=
  match s with
  | [] => ([], [])
  | c :: s' =>
      if f c then let (a, b) := span f s' in (c :: a, b) else ([], s)
  end.

(** [str.isspace] on one character: the code points Python's [strip]
    removes when called without argument. *)
Definition isspace (c : char) : bool :=
  ((9 <=? c) && (c <=? 13)) || ((28 <=? c) && (c <=? 32))
  || (c =? 133) || (c =? 160) || (c =? 5760)
  || ((8192 <=? c) && (c <=? 8202))
  || (c =? 8232) || (c =? 8233) || (c =? 8239) || (c =? 8287) || (c =? 12288).

Fixpoint lstrip (s : str) : str :=
  match s with
  | [] => []
  | c :: s' => if isspace c then lstrip s' else s
  end.

Definition rstrip (s : str) : str := rev (lstrip (rev s)).

(** [s.strip()] *)
Definition strip (s : str) : str := rstrip (lstrip s).

(** [s.split('\n')]: the pieces between line feeds; never an empty list. *)
Fixpoint split_lines (s : str) : list str :=
  match s with
  | [] => [[]]
  | c :: s' =>
      if char_eqb c LF then [] :: split_lines s'
      else match split_lines s' with
           | [] => [[c]]
           | l :: ls => (c :: l) :: ls
           end
  end.

(** [str(n)] for a non-negative integer. *)
Definition str_of_N (n : N) : str := py (NilZero.string_of_uint (N.to_uint n)).

Definition is_ascii (c : char) : bool := c <? 128.
Definition is_ascii_digit (c : char) : bool := (48 <=? c) && (c <=? 57).
Definition is_ascii_lower (c : char) : bool := (97 <=? c) && (c <=? 122).
Definition is_ascii_upper (c : char) : bool := (65 <=? c) && (c <=? 90).

(** What the program takes from its platform rather than defines: the
    Unicode tables behind [\d], [upper] and [lower], the C library's
    rendering of small years, and [urllib.parse.urljoin]. *)
Record Platform := {
  (** decimal value of a code point of category Nd outside ASCII *)
  unicode_decimal : char -> option N;
  (** [c.upper()] for a code point outside ASCII (possibly several
      characters) *)
  unicode_upper : char -> str;
  (** [s.lower()] for a string with a character outside ASCII (the
      lowering of a capital sigma depends on its neighbours) *)
  unicode_lower : str -> str;
  (** [strftime('%Y')] for a year below 1000: padded or not, by C library *)
  strftime_small_year : N -> str;
  (** [urljoin(base, url)]; [None] when it raises [ValueError] *)
  urljoin : str -> str -> option str
}.

Section Text.

Variable P : Platform.

(** The class [\d] of a [str] pattern: every Unicode decimal digit. *)
Definition re_digit (c : char) : bool :=
  is_ascii_digit c
  || (negb (is_ascii c) && match unicode_decimal P c with Some _ => true | None => false end).

(** Value of a decimal digit, as [int] reads it. *)
Definition digit_value (c : char) : N :=
  if is_ascii_digit c then c - 48
  else if is_ascii c then 0
  else match unicode_decimal P c with Some v => v | None => 0 end.

Definition upper_char (c : char) : str :=
  if is_ascii_lower c then [c - 32]
  else if is_ascii c then [c]
  else unicode_upper P c.

(** [s.upper()] *)
Definition upper (s : str) : str := flat_map upper_char s.

Definition lower_ascii (c : char) : char :=
  if is_ascii_upper c then c + 32 else c.

(** [s.lower()] *)
Definition lower (s : str) : str :=
  if forallb is_ascii s then map lower_ascii s else unicode_lower P s.

(** ** The meeting link pattern *)

(** A match of [/(\d{8}-[a-z]+)\.htm] at the very start of [s]; the value is
    group 1.  The greedy [[a-z]+] can only end at the end of the run of
    lowercase letters: a shorter run is followed by a letter, never by the
    dot the pattern wants next, so backtracking finds nothing more. *)
Definition match_meeting_link (s : str) : option str :=
  match s with
  | c :: r =>
      if char_eqb c 47 then
        let d := firstn 8 r in
        if Nat.eqb (length d) 8 && forallb re_digit d then
          match skipn 8 r with
          | dash :: r2 =>
              if char_eqb dash 45 then
                let (code, r3) := span is_ascii_lower r2 in
                match code with
                | [] => None
                | _ :: _ =>
                    if startswith (py ".htm") r3
                    then Some (d ++ dash :: code) else None
                end
              else None
          | [] => None
          end
        else None
      else None
  | [] => None
  end.

(** [re.search(r'/(\d{8}-[a-z]+)\.htm', url)]: the leftmost match. *)
Fixpoint search_meeting_link (s : str) : option str :=
  match match_meeting_link s with
  | Some g => Some g
  | None => match s with
            | [] => None
            | _ :: s' => search_meeting_link s'
            end
  end.

Definition extract_meeting_id (url : str) : option str :=
  search_meeting_link url.

(** ** Dates *)

(** One alternative of a pattern of [_strptime]: the matched text and the
    rest, or nothing. *)
Definition alternative := str -> option (str * str).

Definition in_range (lo hi c : char) : bool := (lo <=? c) && (c <=? hi).

Definition two (f g : char -> bool) : alternative := fun s =>
  match s with
  | a :: b :: r => if f a && g b then Some ([a; b], r) else None
  | _ => None
  end.

Definition one (f : char -> bool) : alternative := fun s =>
  match s with
  | a :: r => if f a then Some ([a], r) else None
  | _ => None
  end.

(** [%Y] is [\d\d\d\d]. *)
Definition re_Y : alternative := fun s =>
  match s with
  | a :: b :: c :: d :: r =>
      if re_digit a && re_digit b && re_digit c && re_digit d
      then Some ([a; b; c; d], r) else None
  | _ => None
  end.

(** [%m] is [1[0-2]|0[1-9]|[1-9]]. *)
Definition re_m : list alternative :=
  [ two (char_eqb 49) (in_range 48 50);
    two (char_eqb 48) (in_range 49 57);
    one (in_range 49 57) ].

(** [%d] is [3[0-1]|[1-2]\d|0[1-9]|[1-9]| [1-9]]. *)
Definition re_d : list alternative :=
  [ two (char_eqb 51) (in_range 48 49);
    two (in_range 49 50) re_digit;
    two (char_eqb 48) (in_range 49 57);
    one (in_range 49 57);
    two (char_eqb 32) (in_range 49 57) ].

(** The first alternative, in order, that matches. *)
Fixpoint first_alt (alts : list alternative) (s : str) : option (str * str) :=
  match alts with
  | [] => None
  | a :: alts' =>
      match a s with
      | Some r => Some r
      | None => first_alt alts' s
      end
  end.

(** The month alternatives in order, each followed by the day pattern: the
    first month alternative after which a day matches wins, as the
    backtracking matcher has it. *)
Fixpoint month_then_day (alts : list alternative) (s : str)
  : option (str * str * str) :=
  match alts with
  | [] => None
  | a :: alts' =>
      match a s with
      | Some (m, r) =>
          match first_alt re_d r with
          | Some (d, r') => Some (m, d, r')
          | None => month_then_day alts' s
          end
      | None => month_then_day alts' s
      end
  end.

(** [int(s)] on a matched group: decimal digits, a leading blank ignored. *)
Definition int_of (s : str) : N :=
  fold_left (fun acc c => if char_eqb c 32 then acc else 10 * acc + digit_value c) s 0.

Definition is_leap (y : N) : bool :=
  ((y mod 4 =? 0) && negb (y mod 100 =? 0)) || (y mod 400 =? 0).

Definition days_in_month (y m : N) : N :=
  if m =? 2 then (if is_leap y then 29 else 28)
  else if (m =? 4) || (m =? 6) || (m =? 9) || (m =? 11) then 30
  else 31.

(** [datetime.strptime(s, '%Y%m%d')]: year, month and day, or [None] for
    [ValueError] (no match, unconverted data, or no such calendar day). *)
Definition strptime_Ymd (s : str) : option (N * N * N) :=
  match re_Y s with
  | Some (ys, r) =>
      match month_then_day re_m r with
      | Some (ms, ds, []) =>
          let y := int_of ys in
          let m := int_of ms in
          let d := int_of ds in
          if (1 <=? y) && (1 <=? d) && (d <=? days_in_month y m)
          then Some (y, m, d) else None
      | _ => None
      end
  | None => None
  end.

Definition two_digits (n : N) : str :=
  if n <? 10 then 48 :: str_of_N n else str_of_N n.

(** [date_obj.strftime('%Y-%m-%d')] *)
Definition strftime_Y_m_d (ymd : N * N * N) : str :=
  let '(y, m, d) := ymd in
  (if y <? 1000 then strftime_small_year P y else str_of_N y)
    ++ 45 :: two_digits m ++ 45 :: two_digits d.

(** The [try]/[except ValueError] of the listing scan: the formatted date,
    or the raw digits when they name no calendar day. *)
Definition format_date (date_str : str) : str :=
  match strptime_Ymd date_str with
  | Some ymd => strftime_Y_m_d ymd
  | None => date_str
  end.

(** ** Meeting types *)

Definition type_map : list (str * str) :=
  [ (py "reg", py "Regular Meeting");
    (py "wrk", py "Work Session");
    (py "spec", py "Special Called Meeting");
    (py "afc", py "Audit & Finance Committee");
    (py "mobc", py "Mobility Committee");
    (py "phc", py "Public Health Committee");
    (py "hpc", py "Housing & Planning Committee");
    (py "cwepc", py "Climate, Water, Energy & Public Enterprises Committee");
    (py "psc", py "Public Safety Committee");
    (py "eoc", py "Economic Opportunity Committee") ].

(** [d.get(k)] on a dictionary given by its items. *)
Fixpoint dict_get (d : list (str * str)) (k : str) : option str :=
  match d with
  | [] => None
  | (k', v) :: d' => if str_eqb k' k then Some v else dict_get d' k
  end.

Definition format_meeting_type (type_code : str) : str :=
  match dict_get type_map type_code with
  | Some label => label
  | None => upper type_code
  end.


End Text.

(** ** Data model *)

(** An [a] element with an [href], as [soup.find_all('a', href=True)] gives
    it: its target and its visible text. *)
Record Link := {
  link_href : str;
  link_get_text : str
}.

(** The [meeting_data] dictionary of the listing scan. *)
Record Meeting := {
  m_id : str;
  m_date : str;
  m_meeting_type : str;
  m_url : str;
  m_link_text : str
}.

(** The dictionary [process_new_meeting] returns:
    [{**meeting_data, 'agenda_url': ..., 'summary': ...}]. *)
Record MeetingInfo := {
  info_data : Meeting;
  info_agenda_url : option str;
  info_summary : str
}.

(** A row of the table [meetings]; [None] is SQL [NULL]. *)
Record Row := {
  row_id : str;
  row_date : str;
  row_meeting_type : str;
  row_url : str;
  row_agenda_url : option str;
  row_summary : str;
  row_discovered_at : str;
  row_notified_at : option str
}.

Definition bytes := list Byte.byte.

Inductive PdfLibrary := pymupdf | pdfplumber | no_pdf_library.

(** The one embed of the webhook message. *)
Record DiscordMessage := {
  embed_title : str;
  embed_description : str;
  embed_summary : str;
  embed_url : str;
  embed_color : N
}.

(** What leaves the process. *)
Inductive Request :=
| HttpGet (url : str)
| GenerateContent (prompt : str)
| WebhookPost (url : str) (message : DiscordMessage).

(** The services the monitor talks to.  An answer depends on the request
    only; [None] stands for any exception of the call ([raise_for_status]
    included).  A downloaded document is kept as its content: the temporary
    file that carries it from [download_pdf] to the extraction and is then
    removed is not modelled. *)
Record World := {
  (** [session.get] of a page, parsed, its links with an [href] in
      document order *)
  get_page : str -> option (list Link);
  (** [session.get] of a document and its writing to the temporary file *)
  get_content : str -> option bytes;
  PDF_LIBRARY : PdfLibrary;
  (** [page.get_text()] of the pages of [fitz.open] *)
  fitz_pages : bytes -> option (list str);
  (** [page.extract_text()] of the pages of [pdfplumber.open] *)
  plumber_pages : bytes -> option (list (option str));
  (** [self.gemini_model]: [generate_content(prompt).text] *)
  gemini_model : option (str -> option str);
  (** [requests.post] to the webhook followed by [raise_for_status] *)
  webhook_post : str -> DiscordMessage -> bool;
  (** [datetime.now().isoformat()] at the n-th reading of the clock *)
  now : nat -> str
}.

(** The table in row order (rows are never deleted, so this is the order of
    insertion), the number of clock readings, and the requests made so far,
    oldest first. *)
Record State := {
  db : list Row;
  clock : nat;
  requests : list Request
}.

Inductive Exn := IntegrityError | ValueError | RequestException.

Inductive outcome (A : Type) :=
| Return (a : A)
| Raise (e : Exn).
Arguments Return {A} a.
Arguments Raise {A} e.

(** A computation reads and changes the state and returns or raises; what
    it did to the state before raising stays done. *)
Definition M (A : Type) := State -> outcome A * State.

Definition ret {A} (a : A) : M A := fun st => (Return a, st).

Definition raise {A} (e : Exn) : M A := fun st => (Raise e, st).

Definition bind {A B} (c : M A) (k : A -> M B) : M B := fun st =>
  match c st with
  | (Return a, st') => k a st'
  | (Raise e, st') => (Raise e, st')
  end.

Notation "x <- c ;; k" := (bind c (fun x => k))
  (at level 61, c at next level, right associativity).
Notation "c ;;; k" := (bind c (fun _ => k))
  (at level 61, right associativity).

(** [try: body except Exception: handler] *)
Definition try_except {A} (body handler : M A) : M A := fun st =>
  match body st with
  | (Return a, st') => (Return a, st')
  | (Raise _, st') => handler st'
  end.

(** A [for] loop that updates [acc] at every element. *)
Fixpoint for_each {A B} (xs : list A) (acc : B) (body : B -> A -> M B) : M B :=
  match xs with
  | [] => ret acc
  | x :: xs' => acc' <- body acc x ;; for_each xs' acc' body
  end.

Definition send (r : Request) : M unit := fun st =>
  (Return tt, {| db := db st; clock := clock st; requests := requests st ++ [r] |}).

Definition of_option {A} (o : option A) (e : Exn) : M A :=
  match o with
  | Some a => ret a
  | None => raise e
  end.

Definition truthy (s : option str) : bool :=
  match s with
  | Some (_ :: _) => true
  | _ => false
  end.

Section Monitor.

Variable P : Platform.
Variable W : World.

(** [datetime.now().isoformat()] *)
Definition isoformat_now : M str := fun st =>
  (Return (now W (clock st)),
   {| db := db st; clock := S (clock st); requests := requests st |}).

(** [session.get(url)], [raise_for_status], [BeautifulSoup], and
    [find_all('a', href=True)]. *)
Definition find_all_links (url : str) : M (list Link) :=
  send (HttpGet url) ;;;
  of_option (get_page W url) RequestException.

Definition py_urljoin (base url : str) : M str :=
  of_option (urljoin P base url) ValueError.

(** ** The store *)

Definition has_id (meeting_id : str) (r : Row) : bool :=
  str_eqb (row_id r) meeting_id.

(** [SELECT id FROM meetings WHERE id = ?] finds a row. *)
Definition meeting_exists (meeting_id : str) : M bool := fun st =>
  (Return (existsb (has_id meeting_id) (db st)), st).

(** [INSERT INTO meetings (...)]: [id] is the primary key, so a second row
    with the same [id] is refused with [sqlite3.IntegrityError]. *)
Definition insert_row (r : Row) : M unit := fun st =>
  if existsb (has_id (row_id r)) (db st) then (Raise IntegrityError, st)
  else (Return tt,
        {| db := db st ++ [r]; clock := clock st; requests := requests st |}).

Definition save_meeting (meeting_data : Meeting) (agenda_url : option str)
    (summary : str) : M unit :=
  discovered_at <- isoformat_now ;;
  insert_row {| row_id := m_id meeting_data;
                row_date := m_date meeting_data;
                row_meeting_type := m_meeting_type meeting_data;
                row_url := m_url meeting_data;
                row_agenda_url := agenda_url;
                row_summary := summary;
                row_discovered_at := discovered_at;
                row_notified_at := None |}.

Definition set_notified_at (ts : str) (r : Row) : Row :=
  {| row_id := row_id r;
     row_date := row_date r;
     row_meeting_type := row_meeting_type r;
     row_url := row_url r;
     row_agenda_url := row_agenda_url r;
     row_summary := row_summary r;
     row_discovered_at := row_discovered_at r;
     row_notified_at := Some ts |}.

(** [UPDATE meetings SET notified_at = ? WHERE id = ?] *)
Definition update_notified_at (ts meeting_id : str) : M unit := fun st =>
  (Return tt,
   {| db := map (fun r => if has_id meeting_id r then set_notified_at ts r else r) (db st);
      clock := clock st;
      requests := requests st |}).

(** ** Discovery *)

Definition info_center_url : str :=
  py "https://www.austintexas.gov/department/city-council/council/council_meeting_info_center.htm".

(** One turn of the loop over the links of the listing page. *)
Definition scan_link (listing_url : str) (new_meetings : list Meeting)
    (link : Link) : M (list Meeting) :=
  let href := link_href link in
  match search_meeting_link P href with
  | None => ret new_meetings
  | Some _ =>
      match extract_meeting_id P href with
      | None => ret new_meetings
      | Some meeting_id =>
          known <- meeting_exists meeting_id ;;
          if known then ret new_meetings
          else
            full_url <- py_urljoin listing_url href ;;
            let date_str := firstn 8 meeting_id in
            let meeting_type := skipn 9 meeting_id in
            let formatted_date := format_date P date_str in
            ret (new_meetings ++
                 [ {| m_id := meeting_id;
                      m_date := formatted_date;
                      m_meeting_type := format_meeting_type P meeting_type;
                      m_url := full_url;
                      m_link_text := strip (link_get_text link) |} ])
      end
  end.

Definition check_for_new_meetings (listing_url : str) : M (list Meeting) :=
  try_except
    (links <- find_all_links listing_url ;;
     for_each links [] (scan_link listing_url))
    (ret []).

(** ** Agenda resolution *)

Definition is_agenda_link (link : Link) : bool :=
  let href := link_href link in
  let link_text := lower P (link_get_text link) in
  contains (py "agenda") link_text
  && (endswith (py ".pdf") href || contains (py "document.cfm?id=") href).

(** The loop over the links of the meeting page, left at the first agenda
    link. *)
Fixpoint first_agenda_link (meeting_url : str) (links : list Link)
  : M (option str) :=
  match links with
  | [] => ret None
  | link :: links' =>
      if is_agenda_link link then
        u <- py_urljoin meeting_url (link_href link) ;; ret (Some u)
      else first_agenda_link meeting_url links'
  end.

Definition get_agenda_url (meeting_url : str) : M (option str) :=
  try_except
    (links <- find_all_links meeting_url ;;
     first_agenda_link meeting_url links)
    (ret None).

(** ** Download and text extraction *)

(** [download_pdf]: the document written to the temporary file, or [None]
    where the source returns [False]. *)
Definition download_pdf (url : str) : M (option bytes) :=
  send (HttpGet url) ;;;
  ret (get_content W url).

Definition _extract_with_pymupdf (pdf : bytes) : option str :=
  match fitz_pages W pdf with
  | Some pages => Some (fold_left (fun text page => text ++ page) pages [])
  | None => None
  end.

Definition _extract_with_pdfplumber (pdf : bytes) : option str :=
  match plumber_pages W pdf with
  | Some pages =>
      Some (fold_left
              (fun text page =>
                 text ++ match page with
                         | Some (c :: t) => c :: t
                         | _ => []
                         end)
              pages [])
  | None => None
  end.

Definition extract_text_from_pdf (pdf : bytes) : option str :=
  match PDF_LIBRARY W with
  | pymupdf => _extract_with_pymupdf pdf
  | pdfplumber => _extract_with_pdfplumber pdf
  | no_pdf_library => None
  end.

(** ** Summaries *)

Definition heading : str :=
  128203 :: py " Key agenda items:" ++ [LF; LF].

Definition disclaimer : str :=
  LF :: py "(Note: This is a basic extraction. Add Gemini API key for AI-powered summaries)".

(** [enumerate(l, i)] *)
Fixpoint enumerate {A} (i : N) (l : list A) : list (N * A) :=
  match l with
  | [] => []
  | x :: l' => (i, x) :: enumerate (N.succ i) l'
  end.

Definition meaningful_lines (text : str) : list str :=
  map strip
      (filter (fun line => Nat.ltb 20 (length (strip line))) (split_lines text)).

Definition _simple_summary (text : str) : str :=
  let lines := meaningful_lines text in
  let summary :=
    fold_left
      (fun summary il =>
         summary ++ str_of_N (fst il) ++ py ". "
                 ++ firstn 150 (snd il) ++ py "..." ++ [LF])
      (enumerate 1 (firstn 5 lines))
      heading in
  summary ++ disclaimer.

Definition MAX_AGENDA_CHARS : nat := 100 * 1000.

Definition instructions : str :=
  py "Summarize this Austin City Council agenda in 3-5 bullet points. " ++ [LF]
  ++ py "Focus on the most important items, public hearings, and policy decisions." ++ [LF]
  ++ py "Keep it concise and accessible to the general public." ++ [LF; LF]
  ++ py "Agenda text:" ++ [LF].

Definition gemini_prompt (agenda_text : str) : str :=
  instructions ++ firstn MAX_AGENDA_CHARS agenda_text.

Definition summarize_agenda (agenda_text : str) : M str :=
  match gemini_model W with
  | None => ret (_simple_summary agenda_text)
  | Some generate_content =>
      let prompt := gemini_prompt agenda_text in
      send (GenerateContent prompt) ;;;
      match generate_content prompt with
      | Some text => ret (strip text)
      | None => ret (_simple_summary agenda_text)
      end
  end.

(** ** Processing one meeting *)

Definition NO_AGENDA : str := py "Agenda not yet available. Check back later.".
Definition NO_TEXT : str := py "Unable to extract text from agenda PDF".
Definition NO_DOWNLOAD : str := py "Failed to download agenda PDF".

Definition process_new_meeting (meeting_data : Meeting) : M MeetingInfo :=
  agenda_url <- get_agenda_url (m_url meeting_data) ;;
  summary <-
    match agenda_url with
    | Some (c :: u) =>
        pdf <- download_pdf (c :: u) ;;
        match pdf with
        | Some content =>
            match extract_text_from_pdf content with
            | Some (a :: t) => summarize_agenda (a :: t)
            | _ => ret NO_TEXT
            end
        | None => ret NO_DOWNLOAD
        end
    | _ => ret NO_AGENDA
    end ;;
  save_meeting meeting_data agenda_url summary ;;;
  ret {| info_data := meeting_data;
         info_agenda_url := agenda_url;
         info_summary := summary |}.

(** ** Notification *)

Definition discord_message (meeting_info : MeetingInfo) : DiscordMessage :=
  {| embed_title := [127963; 65039] ++ py " New Austin City Council Meeting";
     embed_description :=
       py "**" ++ m_meeting_type (info_data meeting_info) ++ py "**"
       ++ [LF; 128197; 32] ++ m_date (info_data meeting_info);
     embed_summary := firstn 1000 (info_summary meeting_info);
     embed_url := m_url (info_data meeting_info);
     embed_color := 5814783 |}.

Definition send_discord_notification (meeting_info : MeetingInfo)
    (webhook_url : str) : M bool :=
  let message := discord_message meeting_info in
  send (WebhookPost webhook_url message) ;;;
  ret (webhook_post W webhook_url message).

(** ** The check cycle *)

(** The body of the loop over the new meetings; the pause of two seconds
    that ends it changes nothing here. *)
Definition cycle_step (discord_webhook_url : option str)
    (processed : list MeetingInfo) (meeting_data : Meeting)
  : M (list MeetingInfo) :=
  meeting_info <- process_new_meeting meeting_data ;;
  let processed := processed ++ [meeting_info] in
  (if truthy discord_webhook_url then
     _ <- send_discord_notification meeting_info
            (match discord_webhook_url with Some u => u | None => [] end) ;;
     ts <- isoformat_now ;;
     update_notified_at ts (m_id meeting_data)
   else ret tt) ;;;
  ret processed.

Definition run_check_cycle (discord_webhook_url : option str)
  : M (list MeetingInfo) :=
  new_meetings <- check_for_new_meetings info_center_url ;;
  match new_meetings with
  | [] => ret []
  | _ :: _ => for_each new_meetings [] (cycle_step discord_webhook_url)
  end.

End Monitor.

(** ** The listings read by the presentation layer *)

(** Comparison of two [TEXT] values under SQLite's [BINARY] collation:
    byte order of the UTF-8 encodings, which is the order of the code
    points, a proper prefix first. *)
Fixpoint str_compare (a b : str) : comparison :=
  match a, b with
  | [], [] => Eq
  | [], _ :: _ => Lt
  | _ :: _, [] => Gt
  | x :: a', y :: b' =>
      match N.compare x y with
      | Eq => str_compare a' b'
      | c => c
      end
  end.

Definition date_ltb (a b : Row) : bool :=
  match str_compare (row_date a) (row_date b) with
  | Lt => true
  | _ => false
  end.

(** [ORDER BY date DESC] as SQLite's sorter does it over the scan of the
    table in row order: rows with equal dates keep the order of the scan.
    (SQL itself promises nothing about rows with equal keys.) *)
Fixpoint insert_desc (r : Row) (sorted : list Row) : list Row :=
  match sorted with
  | [] => [r]
  | x :: rest =>
      if date_ltb r x then x :: insert_desc r rest else r :: x :: rest
  end.

Definition order_by_date_desc (rows : list Row) : list Row :=
  fold_right insert_desc [] rows.

(** [LIMIT n]: a negative [n] means no limit. *)
Definition sql_limit (n : Z) (rows : list Row) : list Row :=
  if (n <? 0)%Z then rows else firstn (Z.to_nat n) rows.

(** The dictionary built from a row of the [SELECT]. *)
Record MeetingView := {
  v_id : str;
  v_date : str;
  v_meeting_type : str;
  v_url : str;
  v_agenda_url : option str;
  v_summary : str;
  v_discovered_at : str
}.

Definition select_columns (r : Row) : MeetingView :=
  {| v_id := row_id r;
     v_date := row_date r;
     v_meeting_type := row_meeting_type r;
     v_url := row_url r;
     v_agenda_url := row_agenda_url r;
     v_summary := row_summary r;
     v_discovered_at := row_discovered_at r |}.


(** SQLite's [LIKE]: [%] stands for any run of characters, [_] for any one
    character, and ASCII letters match without regard to case. *)
Fixpoint like (pattern text : str) : bool :=
  match pattern with
  | [] => match text with [] => true | _ :: _ => false end
  | c :: pattern' =>
      if char_eqb c 37 then
        (fix any (t : str) : bool :=
           like pattern' t
           || match t with [] => false | _ :: t' => any t' end) text
      else
        match text with
        | [] => false
        | x :: text' =>
            (char_eqb c 95 || char_eqb (lower_ascii c) (lower_ascii x))
            && like pattern' text'
        end
  end.

Definition matches_search (search_term : str) (r : Row) : bool :=
  let pattern := 37 :: search_term ++ [37] in
  like pattern (row_meeting_type r) || like pattern (row_summary r).

(** [MeetingDashboard.get_meetings]; [conn] is [None] when the database
    file does not exist. *)
Definition get_meetings (conn : option (list Row)) (limit : option Z)
    (search_term : option str) : list MeetingView :=
  match conn with
  | None => []
  | Some table =>
      let rows :=
        match search_term with
        | Some (c :: t) => filter (matches_search (c :: t)) table
        | _ => table
        end in
      let rows := order_by_date_desc rows in
      let rows :=
        match limit with
        | Some n => if (n =? 0)%Z then rows else sql_limit n rows
        | None => rows
        end in
      map select_columns rows
  end.

(** ** The fallback summary in the words of its description

    Split the text into lines, keep the lines whose trimmed length exceeds
    20 characters, take the first five, truncate each to 150 characters,
    number them from 1, put the heading in front and the disclaimer
    behind. *)

Definition kept_lines (text : str) : list str :=
  filter (fun line => Nat.ltb 20 (length line)) (map strip (split_lines text)).

Definition bullet (i : N) (line : str) : str :=
  str_of_N i ++ py ". " ++ firstn 150 line ++ py "..." ++ [LF].

Definition fallback_summary_spec (text : str) : str :=
  heading
  ++ concat (map (fun il => bullet (fst il) (snd il))
                 (enumerate 1 (firstn 5 (kept_lines text))))
  ++ disclaimer.

(** ** Worked inputs *)

(** A platform with no characters outside ASCII. *)
Definition ascii_platform : Platform :=
  {| unicode_decimal := fun _ => None;
     unicode_upper := fun c => [c];
     unicode_lower := fun s => s;
     strftime_small_year := fun y => str_of_N y;
     urljoin := fun base url => Some (py "https://www.austintexas.gov" ++ url) |}.

(** Seven lines, the second, third, fifth and seventh of them longer than
    20 characters once trimmed. *)
Definition seven_lines : str :=
  py "AGENDA" ++ [LF]
  ++ py "  1. Approve the minutes of the council." ++ [LF]
  ++ py "2. Authorize negotiation of a contract." ++ [LF]
  ++ py "Consent" ++ [LF]
  ++ py "3. Conduct a public hearing on zoning." ++ [LF]
  ++ py "   " ++ [LF]
  ++ py "4. Approve an ordinance on water rates.".


Definition reg_link : Link :=
  {| link_href := py "/20260122-reg.htm";
     link_get_text := py " Regular Meeting - January 22, 2026 " |}.

Definition xyz_link : Link :=
  {| link_href := py "/20260122-xyz.htm";
     link_get_text := py "Joint Meeting" |}.

Definition agenda_link : Link :=
  {| link_href := py "/edims/document.cfm?id=445566";
     link_get_text := py "Agenda" |}.

(** A listing with two meetings; the page of the first has an agenda whose
    text is [seven_lines], the page of the second cannot be fetched; no
    summarization backend; the webhook refuses every message. *)
Definition demo_world : World :=
  {| get_page := fun url =>
       if str_eqb url info_center_url then Some [reg_link; xyz_link]
       else if str_eqb url (py "https://www.austintexas.gov/20260122-reg.htm")
            then Some [agenda_link]
            else None;
     get_content := fun _ => Some [];
     PDF_LIBRARY := pymupdf;
     fitz_pages := fun _ => Some [seven_lines];
     plumber_pages := fun _ => None;
     gemini_model := None;
     webhook_post := fun _ _ => false;
     now := fun n => py "2026-01-20T08:00:0" ++ str_of_N (N.of_nat n) |}.

(** The same with a backend that answers with blanks only. *)
Definition blank_reply_world : World :=
  {| get_page := get_page demo_world;
     get_content := get_content demo_world;
     PDF_LIBRARY := pymupdf;
     fitz_pages := fitz_pages demo_world;
     plumber_pages := plumber_pages demo_world;
     gemini_model := Some (fun _ => Some (py "  " ++ [LF]));
     webhook_post := webhook_post demo_world;
     now := now demo_world |}.

(** The same with the first meeting linked twice on the listing. *)
Definition repeated_link_world : World :=
  {| get_page := fun url =>
       if str_eqb url info_center_url
       then Some [reg_link; reg_link; xyz_link]
       else get_page demo_world url;
     get_content := get_content demo_world;
     PDF_LIBRARY := pymupdf;
     fitz_pages := fitz_pages demo_world;
     plumber_pages := plumber_pages demo_world;
     gemini_model := None;
     webhook_post := webhook_post demo_world;
     now := now demo_world |}.

Definition empty_store : State := {| db := []; clock := 0; requests := [] |}.

Definition webhook : str := py "https://discord.com/api/webhooks/1/token".

(** An agenda text of 150,000 characters. *)
Definition long_text : str := repeat 97 (150 * 1000).


(** ** Pure readings of the pipeline

    The services answer by the request alone, so what one meeting's
    processing finds is a function of the platform, the world and the
    meeting; the lemmas below show the monadic code computes exactly
    these. *)

Definition logged (r : Request) (st : State) : State :=
  {| db := db st; clock := clock st; requests := requests st ++ [r] |}.

(** The agenda of a meeting page: the absolutized target of the first link,
    in document order, that [is_agenda_link] accepts. *)
Definition agenda_of (P : Platform) (W : World) (meeting_url : str)
  : option str :=
  match get_page W meeting_url with
  | None => None
  | Some links =>
      match find (is_agenda_link P) links with
      | Some link => urljoin P meeting_url (link_href link)
      | None => None
      end
  end.

Definition summary_text (W : World) (agenda_text : str) : str :=
  match gemini_model W with
  | None => _simple_summary agenda_text
  | Some generate_content =>
      match generate_content (gemini_prompt agenda_text) with
      | Some text => strip text
      | None => _simple_summary agenda_text
      end
  end.

Definition summary_of (W : World) (agenda_url : option str) : str :=
  match agenda_url with
  | Some (c :: u) =>
      match get_content W (c :: u) with
      | Some content =>
          match extract_text_from_pdf W content with
          | Some (a :: t) => summary_text W (a :: t)
          | _ => NO_TEXT
          end
      | None => NO_DOWNLOAD
      end
  | _ => NO_AGENDA
  end.

Definition info_of (P : Platform) (W : World) (m : Meeting) : MeetingInfo :=
  {| info_data := m;
     info_agenda_url := agenda_of P W (m_url m);
     info_summary := summary_of W (agenda_of P W (m_url m)) |}.

Definition row_of (m : Meeting) (agenda_url : option str)
    (summary discovered_at : str) : Row :=
  {| row_id := m_id m;
     row_date := m_date m;
     row_meeting_type := m_meeting_type m;
     row_url := m_url m;
     row_agenda_url := agenda_url;
     row_summary := summary;
     row_discovered_at := discovered_at;
     row_notified_at := None |}.

(** The identifier and the summary of a row: what no later step of the
    pipeline changes. *)
Definition content (r : Row) : str * str := (row_id r, row_summary r).

Definition ids (table : list Row) : list str := map row_id table.

(** The loop of [check_for_new_meetings] over a fixed table; [None] when
    [urljoin] raises. *)
Fixpoint discover (P : Platform) (table : list Row) (listing_url : str)
    (links : list Link) (new_meetings : list Meeting)
  : option (list Meeting) :=
  match links with
  | [] => Some new_meetings
  | link :: links' =>
      match extract_meeting_id P (link_href link) with
      | None => discover P table listing_url links' new_meetings
      | Some meeting_id =>
          if existsb (has_id meeting_id) table
          then discover P table listing_url links' new_meetings
          else
            match urljoin P listing_url (link_href link) with
            | None => None
            | Some full_url =>
                discover P table listing_url links'
                  (new_meetings ++
                   [ {| m_id := meeting_id;
                        m_date := format_date P (firstn 8 meeting_id);
                        m_meeting_type :=
                          format_meeting_type P (skipn 9 meeting_id);
                        m_url := full_url;
                        m_link_text := strip (link_get_text link) |} ])
            end
      end
  end.

Definition discovered (P : Platform) (W : World) (listing_url : str)
    (table : list Row) : list Meeting :=
  match get_page W listing_url with
  | None => []
  | Some links =>
      match discover P table listing_url links [] with
      | Some new_meetings => new_meetings
      | None => []
      end
  end.


(** The candidates the listing of [demo_world] gives. *)
Definition reg_meeting : Meeting :=
  {| m_id := py "20260122-reg";
     m_date := py "2026-01-22";
     m_meeting_type := py "Regular Meeting";
     m_url := py "https://www.austintexas.gov/20260122-reg.htm";
     m_link_text := py "Regular Meeting - January 22, 2026" |}.

Definition xyz_meeting : Meeting :=
  {| m_id := py "20260122-xyz";
     m_date := py "2026-01-22";
     m_meeting_type := py "XYZ";
     m_url := py "https://www.austintexas.gov/20260122-xyz.htm";
     m_link_text := py "Joint Meeting" |}.


(** ** The order of a listing *)

(** Some occurrence of [x] in [l] comes before some occurrence of [y]. *)
Fixpoint precedes {A} (x y : A) (l : list A) : Prop :=
  match l with
  | [] => False
  | a :: l' => (a = x /\ In y l') \/ precedes x y l'
  end.

(** The date of [x] is not before the date of [y], as texts. *)
Definition newer_or_same (x y : Row) : Prop :=
  str_compare (row_date x) (row_date y) <> Lt.


(** The rows the search of the dashboard keeps. *)
Definition searched (search_term : option str) (table : list Row) : list Row :=
  match search_term with
  | Some (c :: t) => filter (matches_search (c :: t)) table
  | _ => table
  end.

Definition demo_row (i date : string) : Row :=
  {| row_id := py i;
     row_date := py date;
     row_meeting_type := py "Regular Meeting";
     row_url := py "https://www.austintexas.gov/" ++ py i ++ py ".htm";
     row_agenda_url := None;
     row_summary := NO_AGENDA;
     row_discovered_at := py "2026-01-20T08:00:00";
     row_notified_at := None |}.

(** Three rows in the order of their insertion, the first and the third of
    one date. *)
Definition demo_table : list Row :=
  [ demo_row "20260122-reg" "2026-01-22";
    demo_row "20260205-wrk" "2026-02-05";
    demo_row "20260122-xyz" "2026-01-22" ].


(** ** Observations on the state *)

Definition is_post (r : Request) : bool :=
  match r with
  | WebhookPost _ _ => true
  | _ => false
  end.

(** The webhook messages among the requests made, oldest first. *)
Definition posts (st : State) : list Request := filter is_post (requests st).


(** A platform whose [urljoin] raises on a target with an unclosed bracket
    in its host, as [urllib] does. *)
Definition bracket_platform : Platform :=
  {| unicode_decimal := fun _ => None;
     unicode_upper := fun c => [c];
     unicode_lower := fun s => s;
     strftime_small_year := fun y => str_of_N y;
     urljoin := fun base url =>
       if startswith (py "http://[") url then None
       else Some (py "https://www.austintexas.gov" ++ url) |}.

Definition bracket_link : Link :=
  {| link_href := py "http://[/20260301-wrk.htm";
     link_get_text := py "Work Session" |}.

(** The listing of [demo_world] followed by a link that cannot be
    resolved. *)
Definition bracket_world : World :=
  {| get_page := fun url =>
       if str_eqb url info_center_url
       then Some [reg_link; xyz_link; bracket_link]
       else get_page demo_world url;
     get_content := get_content demo_world;
     PDF_LIBRARY := pymupdf;
     fitz_pages := fitz_pages demo_world;
     plumber_pages := plumber_pages demo_world;
     gemini_model := None;
     webhook_post := webhook_post demo_world;
     now := now demo_world |}.


(** ** The shape of a meeting id *)

(** Eight digits, a hyphen, and a lowercase code that is not empty. *)
Definition id_shape (P : Platform) (digits code : str) : Prop :=
  length digits = 8%nat
  /\ forallb (re_digit P) digits = true
  /\ code <> []
  /\ forallb is_ascii_lower code = true.


(** A text none of whose lines is longer than 20 characters. *)
Definition short_lines : str :=
  py "  CITY OF AUSTIN  " ++ [LF] ++ py "Agenda" ++ [LF] ++ [LF]
  ++ py "Thursday, 10:00 AM".


(** ** Dates written in ASCII digits *)

Definition ascii_digits : list char := [48; 49; 50; 51; 52; 53; 54; 55; 56; 57].

(** The number two, and four, ASCII digits write. *)
Definition two_value (a b : char) : N := 10 * (a - 48) + (b - 48).

Definition four_value (a b c d : char) : N :=
  10 * (10 * (10 * (a - 48) + (b - 48)) + (c - 48)) + (d - 48).

(** What the month and day patterns do on four ASCII digits: they take
    all four, two and two, exactly when the month is 01 to 12 and the day
    01 to 31. *)
Definition month_day_check (P : Platform) (m1 m2 d1 d2 : char) : bool :=
  let m := two_value m1 m2 in
  let d := two_value d1 d2 in
  let ok := (1 <=? m) && (m <=? 12) && (1 <=? d) && (d <=? 31) in
  match month_then_day P re_m [m1; m2; d1; d2] with
  | Some (ms, ds, []) => ok && str_eqb ms [m1; m2] && str_eqb ds [d1; d2]
  | _ => negb ok
  end.

(** Reading two digits and writing them back. *)
Definition two_check (P : Platform) (a b : char) : bool :=
  N.eqb (int_of P [a; b]) (two_value a b)
  && str_eqb (two_digits (two_value a b)) [a; b].

(** Reading four digits, and writing them back when the first is not 0. *)
Definition four_check (P : Platform) (a b c d : char) : bool :=
  N.eqb (int_of P [a; b; c; d]) (four_value a b c d)
  && (if 49 <=? a
      then str_eqb (str_of_N (four_value a b c d)) [a; b; c; d]
           && (1000 <=? four_value a b c d)
      else four_value a b c d <? 1000).


(** ** The statistics of the dashboard *)

(** [SELECT MAX(date) FROM meetings]: [NULL] on an empty table. *)
Definition max_date (table : list Row) : option str :=
  fold_left
    (fun best r =>
       match best with
       | None => Some (row_date r)
       | Some b =>
           match str_compare b (row_date r) with
           | Lt => Some (row_date r)
           | _ => Some b
           end
       end)
    table None.

(** One more row of type [ty] in the groups, which are kept in the order of
    their keys, as SQLite's sorter for [GROUP BY] leaves them. *)
Fixpoint count_type (ty : str) (groups : list (str * nat))
  : list (str * nat) :=
  match groups with
  | [] => [(ty, 1%nat)]
  | (k, n) :: rest =>
      match str_compare ty k with
      | Eq => (k, S n) :: rest
      | Lt => (ty, 1%nat) :: groups
      | Gt => (k, n) :: count_type ty rest
      end
  end.

(** [SELECT meeting_type, COUNT( * ) FROM meetings GROUP BY meeting_type],
    as the dictionary made of its rows. *)
Definition group_by_meeting_type (table : list Row) : list (str * nat) :=
  fold_left (fun groups r => count_type (row_meeting_type r) groups) table [].

Record Stats := {
  total_meetings : nat;
  with_agendas : nat;
  latest_date : option str;
  meeting_types : list (str * nat)
}.

(** [MeetingDashboard.get_stats]; [None] is the empty dictionary returned
    when the database file does not exist. *)
Definition get_stats (conn : option (list Row)) : option Stats :=
  match conn with
  | None => None
  | Some table =>
      Some {| total_meetings := length table;
              with_agendas :=
                length (filter (fun r => match row_agenda_url r with
                                         | Some _ => true
                                         | None => false
                                         end) table);
              latest_date := max_date table;
              meeting_types := group_by_meeting_type table |}
  end.

(** [d.get(k, 0)] on the dictionary of counts. *)
Fixpoint count_of (ty : str) (groups : list (str * nat)) : nat :=
  match groups with
  | [] => 0%nat
  | (k, n) :: rest => if str_eqb k ty then n else count_of ty rest
  end.




(** ** The requests of one meeting *)

(** What processing a meeting asks of the world, in order: its page; the
    agenda document when the page names one; the summarization backend
    when one is configured and the document gave text. *)
Definition requests_of (P : Platform) (W : World) (m : Meeting)
  : list Request :=
  HttpGet (m_url m)
  :: match agenda_of P W (m_url m) with
     | Some (c :: u) =>
         HttpGet (c :: u)
         :: match get_content W (c :: u) with
            | Some pdf =>
                match extract_text_from_pdf W pdf, gemini_model W with
                | Some (a :: t), Some _ =>
                    [GenerateContent (gemini_prompt (a :: t))]
                | _, _ => []
                end
            | None => []
            end
     | _ => []
     end.


(** ** The agenda text of a meeting *)

(** [text] is what the summarizer is given for the meeting: the page of
    the meeting can be fetched, its first agenda link resolves to a URL
    that is not empty, the document behind it can be downloaded and the
    extraction gives the text [text], which is not empty. *)
Definition agenda_text (P : Platform) (W : World) (m : Meeting) (text : str)
  : Prop :=
  exists links link url pdf,
    get_page W (m_url m) = Some links
    /\ find (is_agenda_link P) links = Some link
    /\ urljoin P (m_url m) (link_href link) = Some url
    /\ url <> []
    /\ get_content W url = Some pdf
    /\ extract_text_from_pdf W pdf = Some text
    /\ text <> [].

(** [demo_world] with a backend that answers. *)
Definition replying_world : World :=
  {| get_page := get_page demo_world;
     get_content := get_content demo_world;
     PDF_LIBRARY := pymupdf;
     fitz_pages := fitz_pages demo_world;
     plumber_pages := plumber_pages demo_world;
     gemini_model :=
       Some (fun _ => Some (py "  - Budget hearing on water rates. " ++ [LF]));
     webhook_post := webhook_post demo_world;
     now := now demo_world |}.

(** [demo_world] with no document to be had. *)
Definition no_download_world : World :=
  {| get_page := get_page demo_world;
     get_content := fun _ => None;
     PDF_LIBRARY := pymupdf;
     fitz_pages := fitz_pages demo_world;
     plumber_pages := plumber_pages demo_world;
     gemini_model := None;
     webhook_post := webhook_post demo_world;
     now := now demo_world |}.

(** [demo_world] with documents of one page without text. *)
Definition no_text_world : World :=
  {| get_page := get_page demo_world;
     get_content := get_content demo_world;
     PDF_LIBRARY := pymupdf;
     fitz_pages := fun _ => Some [[]];
     plumber_pages := plumber_pages demo_world;
     gemini_model := None;
     webhook_post := webhook_post demo_world;
     now := now demo_world |}.

(** [demo_world] with the meeting whose page cannot be fetched listed
    twice, before the other. *)
Definition twice_listed_world : World :=
  {| get_page := fun url =>
       if str_eqb url info_center_url
       then Some [xyz_link; xyz_link; reg_link]
       else get_page demo_world url;
     get_content := get_content demo_world;
     PDF_LIBRARY := pymupdf;
     fitz_pages := fitz_pages demo_world;
     plumber_pages := plumber_pages demo_world;
     gemini_model := None;
     webhook_post := webhook_post demo_world;
     now := now demo_world |}.


(** * Properties *)

(** ** Strings *)

Lemma fold_left_append {A} (f : A -> str) (l : list A) (init : str) :
  fold_left (fun s x => s ++ f x) l init = init ++ concat (map f l).
Proof.
  revert init. induction l as [|x l IH]; intros init; simpl.
  - now rewrite app_nil_r.
  - rewrite IH. now rewrite <- app_assoc.
Qed.

Lemma map_filter_swap {A B} (g : A -> B) (f : B -> bool) (l : list A) :
  map g (filter (fun a => f (g a)) l) = filter f (map g l).
Proof.
  induction l as [|x l IH]; simpl; [reflexivity|].
  destruct (f (g x)); simpl; now rewrite IH.
Qed.

Lemma meaningful_lines_kept (text : str) :
  meaningful_lines text = kept_lines text.
Proof.
  unfold meaningful_lines, kept_lines.
  apply (map_filter_swap strip (fun line => Nat.ltb 20 (length line))).
Qed.

Lemma simple_summary_spec (text : str) :
  _simple_summary text = fallback_summary_spec text.
Proof.
  unfold _simple_summary, fallback_summary_spec.
  rewrite meaningful_lines_kept.
  rewrite (fold_left_append
             (fun il => str_of_N (fst il) ++ py ". " ++ firstn 150 (snd il)
                        ++ py "..." ++ [LF])).
  now rewrite <- app_assoc.
Qed.

Lemma enumerate_bounds {A} (l : list A) (start i : N) (x : A) :
  In (i, x) (enumerate start l) ->
  start <= i /\ i < start + N.of_nat (length l) /\ In x l.
Proof.
  revert start. induction l as [|y l IH]; intros start H; simpl in *.
  - contradiction.
  - destruct H as [H|H].
    + inversion H; subst. split; [lia|split; [lia|now left]].
    + apply IH in H. destruct H as (H1 & H2 & H3).
      split; [lia|split; [lia|now right]].
Qed.

(** C4: the fallback summary is the heading, one numbered bullet for each
    of the first five lines whose trimmed length exceeds 20 characters, in
    the order of the text, each cut to 150 characters and followed by an
    ellipsis, and the disclaimer; a text of 7 lines of which 4 are that
    long gives exactly the bullets 1 to 4. *)
Theorem fallback_summary_correct (text : str) :
  _simple_summary text = fallback_summary_spec text
  /\ (forall i line,
        In (i, line) (enumerate 1 (firstn 5 (kept_lines text))) ->
        1 <= i <= 5 /\ In line (kept_lines text)
        /\ (length (firstn 150 line) <= 150)%nat)
  /\ (length (split_lines text) = 7%nat ->
      length (kept_lines text) = 4%nat ->
      exists a b c d,
        kept_lines text = [a; b; c; d]
        /\ _simple_summary text =
             heading
             ++ (py "1. " ++ firstn 150 a ++ py "..." ++ [LF])
             ++ (py "2. " ++ firstn 150 b ++ py "..." ++ [LF])
             ++ (py "3. " ++ firstn 150 c ++ py "..." ++ [LF])
             ++ (py "4. " ++ firstn 150 d ++ py "..." ++ [LF])
             ++ disclaimer).
Proof.
  split; [apply simple_summary_spec|split].
  - intros i line H. apply enumerate_bounds in H.
    destruct H as (H1 & H2 & H3).
    assert (length (firstn 5 (kept_lines text)) <= 5)%nat
      by apply firstn_le_length.
    split; [lia|split].
    + revert H3. generalize (kept_lines text) 5%nat.
      intros l n. revert l. induction n; intros [|y l]; simpl; try tauto.
      intros [H3|H3]; [now left|right; now apply IHn].
    + apply firstn_le_length.
  - intros _ H4.
    destruct (kept_lines text) as [|a [|b [|c [|d [|e l]]]]] eqn:E;
      try discriminate H4.
    exists a, b, c, d. split; [reflexivity|].
    rewrite simple_summary_spec. unfold fallback_summary_spec.
    rewrite E. change (firstn 5 [a; b; c; d]) with [a; b; c; d].
    cbn -[firstn heading disclaimer].
    rewrite app_nil_r. repeat (rewrite <- app_assoc; cbn [app]). reflexivity.
Qed.

Lemma fallback_summary_correct_witness :
  length (split_lines seven_lines) = 7%nat
  /\ length (kept_lines seven_lines) = 4%nat
  /\ exists a b c d,
       kept_lines seven_lines = [a; b; c; d]
       /\ _simple_summary seven_lines =
            heading
            ++ (py "1. " ++ firstn 150 a ++ py "..." ++ [LF])
            ++ (py "2. " ++ firstn 150 b ++ py "..." ++ [LF])
            ++ (py "3. " ++ firstn 150 c ++ py "..." ++ [LF])
            ++ (py "4. " ++ firstn 150 d ++ py "..." ++ [LF])
            ++ disclaimer.
Proof.
  split; [reflexivity|split; [reflexivity|]].
  apply (proj2 (proj2 (fallback_summary_correct seven_lines))); reflexivity.
Defined.

(** ** Identifiers, dates and meeting types *)

Lemma str_eqb_eq (a b : str) : str_eqb a b = true <-> a = b.
Proof.
  revert b. induction a as [|x a IH]; intros [|y b]; simpl;
    try (split; [discriminate|discriminate]); try tauto.
  unfold char_eqb. rewrite andb_true_iff, N.eqb_eq, IH.
  split; [intros [-> ->]; reflexivity|intros H; inversion H; auto].
Qed.

Lemma str_eqb_refl (a : str) : str_eqb a a = true.
Proof. now apply str_eqb_eq. Qed.



Lemma span_app_stop (f : char -> bool) (s t : str) (c : char) :
  f c = false ->
  span f (s ++ c :: t) = (fst (span f s), snd (span f s) ++ c :: t).
Proof.
  intros Hc. induction s as [|a s IH]; simpl.
  - now rewrite Hc.
  - destruct (f a); [|reflexivity].
    rewrite IH. now destruct (span f s).
Qed.

Lemma startswith_app_stop (p r t : str) (c : char) :
  forallb (fun x => negb (char_eqb x c)) p = true ->
  startswith p r = false ->
  startswith p (r ++ c :: t) = false.
Proof.
  revert r. induction p as [|x p IH]; intros r Hp H; simpl in *.
  - discriminate H.
  - apply andb_true_iff in Hp. destruct Hp as [Hx Hp].
    destruct r as [|y r]; simpl.
    + apply negb_true_iff in Hx. now rewrite Hx.
    + destruct (char_eqb x y); [|reflexivity]. simpl in *. now apply IH.
Qed.

Lemma firstn_short_app {A} (n : nat) (r t : list A) (c : A) :
  (length r < n)%nat ->
  firstn n (r ++ c :: t) = r ++ c :: firstn (n - length r - 1) t.
Proof.
  revert n. induction r as [|a r IH]; intros n H; simpl in *.
  - destruct n; [lia|]. simpl. now rewrite Nat.sub_0_r.
  - destruct n; [lia|]. simpl. rewrite IH by lia. reflexivity.
Qed.

(** A slash after a text the pattern does not match at its start leaves
    it unmatched: the pattern has a slash at its first place only. *)
Lemma match_meeting_link_app (P : Platform) (s t : str) :
  s <> [] ->
  match_meeting_link P s = None ->
  match_meeting_link P (s ++ @cons char 47 t) = None.
Proof.
  destruct s as [|c r]; [congruence|]. intros _.
  cbn [app]. unfold match_meeting_link.
  destruct (char_eqb c 47); [|reflexivity].
  destruct (Nat.leb 8 (length r)) eqn:L.
  - apply Nat.leb_le in L.
    rewrite firstn_app, skipn_app.
    replace (8 - length r)%nat with 0%nat by lia.
    rewrite firstn_O, skipn_O, app_nil_r.
    destruct (Nat.eqb (length (firstn 8 r)) 8 && forallb (re_digit P) (firstn 8 r));
      [|reflexivity].
    destruct (skipn 8 r) as [|dash r2]; [reflexivity|].
    cbn [app]. destruct (char_eqb dash 45); [|reflexivity].
    rewrite (span_app_stop is_ascii_lower r2 t 47 eq_refl).
    destruct (span is_ascii_lower r2) as [code r3]. cbn [fst snd].
    destruct code as [|a code]; [reflexivity|].
    destruct (startswith (py ".htm") r3) eqn:E; [discriminate|].
    intros _. now rewrite (startswith_app_stop (py ".htm") r3 t 47 eq_refl E).
  - apply Nat.leb_gt in L. intros _.
    rewrite (firstn_short_app 8 r t 47 L).
    rewrite forallb_app. cbn [forallb].
    change (re_digit P 47) with false.
    rewrite andb_false_r. cbn [andb]. rewrite andb_false_r. reflexivity.
Qed.

Lemma search_meeting_link_cons (P : Platform) (c : char) (s : str) :
  search_meeting_link P (c :: s)
  = match match_meeting_link P (c :: s) with
    | Some g => Some g
    | None => search_meeting_link P s
    end.
Proof. reflexivity. Qed.

(** The search skips a part of the link that holds no match. *)
Lemma search_meeting_link_app (P : Platform) (pre t : str) :
  search_meeting_link P pre = None ->
  search_meeting_link P (pre ++ @cons char 47 t)
  = search_meeting_link P (@cons char 47 t).
Proof.
  induction pre as [|a pre IH]; intros H; [reflexivity|].
  rewrite search_meeting_link_cons in H.
  destruct (match_meeting_link P (a :: pre)) eqn:E; [discriminate H|].
  change ((a :: pre) ++ @cons char 47 t) with (a :: (pre ++ @cons char 47 t)).
  rewrite search_meeting_link_cons.
  change (a :: (pre ++ @cons char 47 t)) with ((a :: pre) ++ @cons char 47 t).
  rewrite (match_meeting_link_app P (a :: pre) t); [|discriminate|exact E].
  now apply IH.
Qed.



(** ** Summaries *)

(** C7: with the backend configured, the one request a summarization makes
    carries the instructions followed by the first 100,000 characters of
    the agenda text: the whole text when it is no longer than that, its
    prefix of exactly 100,000 characters otherwise. *)
Theorem prompt_truncation (W : World) (generate_content : str -> option str)
    (agenda_text : str) (st : State) :
  gemini_model W = Some generate_content ->
  (exists summary,
      summarize_agenda W agenda_text st
      = (Return summary,
         {| db := db st;
            clock := clock st;
            requests :=
              requests st
              ++ [GenerateContent
                    (instructions ++ firstn (100 * 1000) agenda_text)] |}))
  /\ ((length agenda_text <= 100 * 1000)%nat ->
      firstn (100 * 1000) agenda_text = agenda_text)
  /\ ((100 * 1000 < length agenda_text)%nat ->
      length (firstn (100 * 1000) agenda_text) = (100 * 1000)%nat
      /\ agenda_text
         = firstn (100 * 1000) agenda_text ++ skipn (100 * 1000) agenda_text
      /\ skipn (100 * 1000) agenda_text <> []).
Proof.
  intros Hmodel. split; [|split].
  - unfold summarize_agenda. rewrite Hmodel.
    unfold bind, send, gemini_prompt, MAX_AGENDA_CHARS.
    destruct (generate_content _); eexists; reflexivity.
  - intros H. apply firstn_all2. exact H.
  - intros H. split; [|split].
    + rewrite length_firstn. lia.
    + symmetry. apply firstn_skipn.
    + intros E. apply (f_equal (@length char)) in E.
      rewrite length_skipn in E. cbn [length] in E. lia.
Qed.

Lemma prompt_truncation_witness :
  length long_text = (150 * 1000)%nat
  /\ (exists summary,
        summarize_agenda blank_reply_world long_text empty_store
        = (Return summary,
           {| db := [];
              clock := 0;
              requests :=
                [GenerateContent
                   (instructions ++ firstn (100 * 1000) long_text)] |}))
  /\ length (firstn (100 * 1000) long_text) = (100 * 1000)%nat.
Proof.
  assert (L : length long_text = (150 * 1000)%nat)
    by exact (repeat_length 97 (150 * 1000)).
  destruct (prompt_truncation blank_reply_world
              (fun _ => Some (py "  " ++ [LF])) long_text empty_store
              eq_refl) as (Hsent & _ & Hlong).
  split; [exact L|split; [exact Hsent|]].
  apply Hlong. rewrite L. lia.
Defined.

(** ** The pipeline, step by step *)

Lemma find_all_links_run (W : World) (url : str) (st : State) :
  find_all_links W url st
  = (match get_page W url with
     | Some links => Return links
     | None => Raise RequestException
     end, logged (HttpGet url) st).
Proof.
  unfold find_all_links, bind, send, of_option, logged.
  destruct (get_page W url); reflexivity.
Qed.

Lemma first_agenda_link_run (P : Platform) (url : str) (links : list Link)
    (st : State) :
  first_agenda_link P url links st
  = (match find (is_agenda_link P) links with
     | Some link =>
         match urljoin P url (link_href link) with
         | Some u => Return (Some u)
         | None => Raise ValueError
         end
     | None => Return None
     end, st).
Proof.
  induction links as [|link links IH]; simpl; [reflexivity|].
  destruct (is_agenda_link P link); [|exact IH].
  unfold bind, py_urljoin, of_option.
  destruct (urljoin P url (link_href link)); reflexivity.
Qed.

Lemma get_agenda_url_run (P : Platform) (W : World) (url : str) (st : State) :
  get_agenda_url P W url st
  = (Return (agenda_of P W url), logged (HttpGet url) st).
Proof.
  unfold get_agenda_url, try_except, bind, agenda_of.
  rewrite find_all_links_run.
  destruct (get_page W url) as [links|]; [|reflexivity].
  rewrite first_agenda_link_run.
  destruct (find (is_agenda_link P) links) as [link|]; [|reflexivity].
  destruct (urljoin P url (link_href link)); reflexivity.
Qed.

Lemma summarize_agenda_run (W : World) (text : str) (st : State) :
  exists st',
    summarize_agenda W text st = (Return (summary_text W text), st')
    /\ db st' = db st /\ clock st' = clock st.
Proof.
  unfold summarize_agenda, summary_text.
  destruct (gemini_model W) as [g|].
  - unfold bind, send.
    destruct (g (gemini_prompt text)); eexists; split; try reflexivity;
      split; reflexivity.
  - eexists; split; [reflexivity|split; reflexivity].
Qed.

Lemma existsb_has_id (i : str) (table : list Row) :
  existsb (has_id i) table = true <-> In i (ids table).
Proof.
  unfold ids. rewrite existsb_exists, in_map_iff.
  split; intros (r & H1 & H2).
  - exists r. apply str_eqb_eq in H2. auto.
  - exists r. split; [exact H2|]. now apply str_eqb_eq.
Qed.

Lemma not_existsb_has_id (i : str) (table : list Row) :
  existsb (has_id i) table = false <-> ~ In i (ids table).
Proof.
  rewrite <- existsb_has_id. destruct (existsb (has_id i) table);
    split; intros H; try reflexivity; try discriminate; try congruence.
Qed.

Lemma save_meeting_new (W : World) (m : Meeting) (agenda_url : option str)
    (summary : str) (st : State) :
  existsb (has_id (m_id m)) (db st) = false ->
  save_meeting W m agenda_url summary st
  = (Return tt,
     {| db := db st ++ [row_of m agenda_url summary (now W (clock st))];
        clock := S (clock st);
        requests := requests st |}).
Proof.
  intros Hnew. unfold save_meeting. unfold bind, isoformat_now, insert_row.
  cbn [db clock requests row_id]. rewrite Hnew. reflexivity.
Qed.

(** A second row with an id of the table is refused. *)
Lemma save_meeting_known (W : World) (m : Meeting) (agenda_url : option str)
    (summary : str) (st : State) :
  existsb (has_id (m_id m)) (db st) = true ->
  save_meeting W m agenda_url summary st
  = (Raise IntegrityError,
     {| db := db st; clock := S (clock st); requests := requests st |}).
Proof.
  intros Hold. unfold save_meeting. unfold bind, isoformat_now, insert_row.
  cbn [db clock requests row_id]. rewrite Hold. reflexivity.
Qed.

(** Processing a meeting comes to saving it, with the agenda and the
    summary its own steps give, in a state whose table is still the one it
    started from. *)
Lemma process_new_meeting_run (P : Platform) (W : World) (m : Meeting)
    (st : State) :
  exists st1,
    db st1 = db st
    /\ process_new_meeting P W m st
       = (save_meeting W m (agenda_of P W (m_url m))
            (summary_of W (agenda_of P W (m_url m))) ;;;
          ret (info_of P W m)) st1.
Proof.
  unfold process_new_meeting, info_of, summary_of.
  unfold bind at 1. rewrite get_agenda_url_run.
  destruct (agenda_of P W (m_url m)) as [[|c u]|].
  - unfold bind at 1. unfold ret at 1. eexists; split; [|reflexivity].
    reflexivity.
  - unfold bind at 1. unfold bind at 1. unfold download_pdf, bind, send, ret.
    destruct (get_content W (c :: u)) as [content|].
    + destruct (extract_text_from_pdf W content) as [[|a t]|].
      * eexists; split; [|reflexivity]. reflexivity.
      * destruct (summarize_agenda_run W (a :: t)
                    {| db := db (logged (HttpGet (m_url m)) st);
                       clock := clock (logged (HttpGet (m_url m)) st);
                       requests := requests (logged (HttpGet (m_url m)) st)
                                   ++ [HttpGet (c :: u)] |})
          as (st1 & R & D & _).
        rewrite R. exists st1. split; [exact D|reflexivity].
      * eexists; split; [|reflexivity]. reflexivity.
    + eexists; split; [|reflexivity]. reflexivity.
  - unfold bind at 1. unfold ret at 1. eexists; split; [|reflexivity].
    reflexivity.
Qed.

(** Processing a meeting whose id the store does not know appends its row. *)
Lemma process_new_meeting_new (P : Platform) (W : World) (m : Meeting)
    (st : State) :
  existsb (has_id (m_id m)) (db st) = false ->
  exists st' ts,
    process_new_meeting P W m st = (Return (info_of P W m), st')
    /\ db st' = db st ++ [row_of m (agenda_of P W (m_url m))
                            (summary_of W (agenda_of P W (m_url m))) ts].
Proof.
  intros Hnew.
  destruct (process_new_meeting_run P W m st) as (st1 & D & R).
  rewrite R. unfold bind.
  rewrite save_meeting_new by (rewrite D; exact Hnew).
  unfold ret. eexists. eexists. split; [reflexivity|].
  cbn [db]. rewrite D. reflexivity.
Qed.

(** Processing a meeting whose id the store knows raises and leaves the
    table as it was. *)
Lemma process_new_meeting_known (P : Platform) (W : World) (m : Meeting)
    (st : State) :
  existsb (has_id (m_id m)) (db st) = true ->
  exists st',
    process_new_meeting P W m st = (Raise IntegrityError, st')
    /\ db st' = db st.
Proof.
  intros Hold.
  destruct (process_new_meeting_run P W m st) as (st1 & D & R).
  rewrite R. unfold bind.
  rewrite save_meeting_known by (rewrite D; exact Hold).
  eexists. split; [reflexivity|]. cbn [db]. exact D.
Qed.

Lemma content_set_notified (ts i : str) (table : list Row) :
  map content
      (map (fun r => if has_id i r then set_notified_at ts r else r) table)
  = map content table.
Proof.
  rewrite map_map. apply map_ext. intros r.
  destruct (has_id i r); reflexivity.
Qed.

(** One turn of the cycle on a meeting the store does not know: its row is
    added, and no row loses its id or its summary. *)
Lemma cycle_step_new (P : Platform) (W : World) (hook : option str)
    (processed : list MeetingInfo) (m : Meeting) (st : State) :
  existsb (has_id (m_id m)) (db st) = false ->
  exists st',
    cycle_step P W hook processed m st
    = (Return (processed ++ [info_of P W m]), st')
    /\ map content (db st')
       = map content (db st)
         ++ [(m_id m, summary_of W (agenda_of P W (m_url m)))].
Proof.
  intros Hnew.
  destruct (process_new_meeting_new P W m st Hnew) as (st1 & ts & R & D).
  unfold cycle_step. unfold bind at 1. rewrite R.
  destruct (truthy hook).
  - unfold bind, send_discord_notification, send, isoformat_now,
      update_notified_at, ret.
    eexists. split; [reflexivity|].
    cbn [db]. rewrite content_set_notified, D, map_app. reflexivity.
  - unfold bind, ret. eexists. split; [reflexivity|].
    rewrite D, map_app. reflexivity.
Qed.

Lemma cycle_step_known (P : Platform) (W : World) (hook : option str)
    (processed : list MeetingInfo) (m : Meeting) (st : State) :
  existsb (has_id (m_id m)) (db st) = true ->
  exists st',
    cycle_step P W hook processed m st = (Raise IntegrityError, st')
    /\ db st' = db st.
Proof.
  intros Hold.
  destruct (process_new_meeting_known P W m st Hold) as (st1 & R & D).
  unfold cycle_step. unfold bind at 1. rewrite R.
  exists st1. split; [reflexivity|exact D].
Qed.

Lemma ids_content (table : list Row) : ids table = map fst (map content table).
Proof. unfold ids. rewrite map_map. reflexivity. Qed.

(** The cycle over candidates with pairwise distinct ids, none of them in
    the store: every one is processed and saved, in order. *)
Lemma cycle_all_new (P : Platform) (W : World) (hook : option str)
    (ms : list Meeting) :
  forall (processed : list MeetingInfo) (st : State),
    NoDup (map m_id ms) ->
    (forall m, In m ms -> ~ In (m_id m) (ids (db st))) ->
    exists st',
      for_each ms processed (cycle_step P W hook) st
      = (Return (processed ++ map (info_of P W) ms), st')
      /\ map content (db st')
         = map content (db st)
           ++ map (fun m => (m_id m, summary_of W (agenda_of P W (m_url m))))
                  ms.
Proof.
  induction ms as [|m ms IH]; intros processed st Hnd Hfresh.
  - exists st. simpl. rewrite !app_nil_r. split; reflexivity.
  - simpl in Hnd. inversion Hnd as [|x l Hm Hnd']; subst.
    assert (Hnew : existsb (has_id (m_id m)) (db st) = false).
    { apply not_existsb_has_id. apply Hfresh. now left. }
    destruct (cycle_step_new P W hook processed m st Hnew) as (st1 & R & D).
    destruct (IH (processed ++ [info_of P W m]) st1 Hnd') as (st' & R' & D').
    { intros m' Hin Hid. rewrite ids_content, D, map_app in Hid.
      apply in_app_or in Hid. destruct Hid as [Hid|Hid].
      - rewrite <- ids_content in Hid.
        apply (Hfresh m' (or_intror Hin) Hid).
      - simpl in Hid. destruct Hid as [Hid|[]].
        apply Hm. rewrite Hid. now apply in_map. }
    exists st'. split.
    + simpl. unfold bind at 1. rewrite R. rewrite R'.
      rewrite <- app_assoc. reflexivity.
    + rewrite D', D, <- app_assoc. reflexivity.
Qed.


(** ** Discovery *)

Lemma scan_loop_run (P : Platform) (url : str) (links : list Link) :
  forall (acc : list Meeting) (st : State),
    for_each links acc (scan_link P url) st
    = (match discover P (db st) url links acc with
       | Some new_meetings => Return new_meetings
       | None => Raise ValueError
       end, st).
Proof.
  induction links as [|link links IH]; intros acc st; simpl; [reflexivity|].
  unfold bind at 1, scan_link, extract_meeting_id.
  destruct (search_meeting_link P (link_href link)) as [i|].
  - unfold bind, meeting_exists, py_urljoin, of_option.
    destruct (existsb (has_id i) (db st)).
    + apply IH.
    + destruct (urljoin P url (link_href link)); [apply IH|reflexivity].
  - apply IH.
Qed.

Lemma check_for_new_meetings_run (P : Platform) (W : World) (url : str)
    (st : State) :
  check_for_new_meetings P W url st
  = (Return (discovered P W url (db st)), logged (HttpGet url) st).
Proof.
  unfold check_for_new_meetings, try_except, discovered.
  unfold bind. rewrite find_all_links_run.
  destruct (get_page W url) as [links|]; [|reflexivity].
  rewrite scan_loop_run. cbn [db logged].
  destruct (discover P (db st) url links []); reflexivity.
Qed.

(** A candidate of the scan is one the scan started with or one whose id is
    not in the table. *)
Lemma discover_fresh (P : Platform) (table : list Row) (url : str)
    (links : list Link) :
  forall acc ms,
    discover P table url links acc = Some ms ->
    forall m, In m ms -> In m acc \/ ~ In (m_id m) (ids table).
Proof.
  induction links as [|link links IH]; intros acc ms H m Hm; simpl in H.
  - inversion H; subst. now left.
  - destruct (extract_meeting_id P (link_href link)) as [i|]; [|eauto].
    destruct (existsb (has_id i) table) eqn:E; [eauto|].
    destruct (urljoin P url (link_href link)) as [u|]; [|discriminate].
    destruct (IH _ _ H m Hm) as [Hin|Hout]; [|now right].
    apply in_app_or in Hin. destruct Hin as [Hin|[Hin|[]]]; [now left|].
    right. subst m. cbn [m_id]. now apply not_existsb_has_id.
Qed.


(** When the table holds every id the page carries, the scan adds
    nothing and does not even resolve a link. *)
Lemma discover_all_known (P : Platform) (table : list Row) (url : str)
    (links : list Link) (acc : list Meeting) :
  (forall link i,
      In link links ->
      extract_meeting_id P (link_href link) = Some i ->
      In i (ids table)) ->
  discover P table url links acc = Some acc.
Proof.
  induction links as [|link links IH]; intros H; simpl; [reflexivity|].
  destruct (extract_meeting_id P (link_href link)) as [i|] eqn:Ei.
  - assert (K : existsb (has_id i) table = true).
    { apply existsb_has_id. apply (H link i); [now left|exact Ei]. }
    rewrite K. apply IH. intros l j Hl. apply H. now right.
  - apply IH. intros l j Hl. apply H. now right.
Qed.

(** No candidate of a discovery is in the store. *)
Lemma discovered_fresh (P : Platform) (W : World) (url : str)
    (table : list Row) (m : Meeting) :
  In m (discovered P W url table) -> ~ In (m_id m) (ids table).
Proof.
  unfold discovered. destruct (get_page W url) as [links|]; [|intros []].
  destruct (discover P table url links []) as [ms|] eqn:E; [|intros []].
  intros Hm. destruct (discover_fresh _ _ _ _ _ _ E m Hm) as [[]|H]. exact H.
Qed.

Lemma run_check_cycle_run (P : Platform) (W : World) (hook : option str)
    (st : State) :
  run_check_cycle P W hook st
  = match discovered P W info_center_url (db st) with
    | [] => (Return [], logged (HttpGet info_center_url) st)
    | m :: ms =>
        for_each (m :: ms) [] (cycle_step P W hook)
          (logged (HttpGet info_center_url) st)
    end.
Proof.
  unfold run_check_cycle. unfold bind at 1.
  rewrite check_for_new_meetings_run.
  destruct (discovered P W info_center_url (db st)); reflexivity.
Qed.

(** ** The check cycle *)




(** C5, as the code has it: among candidates with pairwise distinct ids, a
    meeting whose page cannot be fetched is saved with the summary that
    says the agenda is not available, and every other candidate is saved
    with the summary its own steps give; the cycle returns. *)
Theorem resolver_failure_is_isolated (P : Platform) (W : World)
    (hook : option str) (st : State) (candidates : list Meeting)
    (A B : Meeting) :
  fst (check_for_new_meetings P W info_center_url st) = Return candidates ->
  NoDup (map m_id candidates) ->
  In A candidates ->
  In B candidates ->
  get_page W (m_url A) = None ->
  exists infos st',
    run_check_cycle P W hook st = (Return infos, st')
    /\ (exists r, In r (db st') /\ row_id r = m_id A
                  /\ row_summary r = NO_AGENDA)
    /\ (exists r, In r (db st') /\ row_id r = m_id B
                  /\ row_summary r = summary_of W (agenda_of P W (m_url B))).
Proof.
  intros Hc Hnd HA HB Hfail.
  rewrite check_for_new_meetings_run in Hc. cbn [fst] in Hc.
  inversion Hc as [Hd]. clear Hc. rewrite <- Hd in Hnd, HA, HB. clear Hd.
  rewrite run_check_cycle_run.
  destruct (discovered P W info_center_url (db st)) as [|m ms] eqn:D;
    [destruct HA|].
  destruct (cycle_all_new P W hook (m :: ms) []
              (logged (HttpGet info_center_url) st) Hnd)
    as (st' & R & C).
  { intros m' Hm'. cbn [db logged]. apply (discovered_fresh P W info_center_url).
    rewrite D. exact Hm'. }
  exists (map (info_of P W) (m :: ms)), st'. split; [exact R|].
  assert (Saved : forall X, In X (m :: ms) ->
            exists r, In r (db st') /\ row_id r = m_id X
                      /\ row_summary r
                         = summary_of W (agenda_of P W (m_url X))).
  { intros X HX.
    assert (Hin : In (m_id X, summary_of W (agenda_of P W (m_url X)))
                     (map content (db st'))).
    { rewrite C. apply in_or_app. right.
      apply (in_map (fun m0 => (m_id m0,
                       summary_of W (agenda_of P W (m_url m0))))). exact HX. }
    apply in_map_iff in Hin. destruct Hin as (r & Hc & Hr).
    exists r. unfold content in Hc. inversion Hc. auto. }
  split; [|apply Saved; exact HB].
  destruct (Saved A HA) as (r & Hr & Hid & Hs).
  exists r. split; [exact Hr|split; [exact Hid|]].
  rewrite Hs. unfold agenda_of. rewrite Hfail. reflexivity.
Qed.

Lemma resolver_failure_is_isolated_witness :
  exists infos st',
    run_check_cycle ascii_platform demo_world None empty_store
    = (Return infos, st')
    /\ (exists r, In r (db st') /\ row_id r = m_id xyz_meeting
                  /\ row_summary r = NO_AGENDA)
    /\ (exists r, In r (db st') /\ row_id r = m_id reg_meeting
                  /\ row_summary r
                     = summary_of demo_world
                         (agenda_of ascii_platform demo_world
                            (m_url reg_meeting))).
Proof.
  apply (resolver_failure_is_isolated ascii_platform demo_world None
           empty_store [reg_meeting; xyz_meeting] xyz_meeting reg_meeting).
  - reflexivity.
  - change (NoDup [py "20260122-reg"; py "20260122-xyz"]).
    repeat constructor; simpl; intuition discriminate.
  - right. left. reflexivity.
  - left. reflexivity.
  - reflexivity.
Defined.

(** The meeting whose page cannot be fetched is listed twice, before a
    meeting whose own processing succeeds: the first is saved, the cycle
    raises at its second listing, and the other meeting is never reached
    and never saved. *)
Lemma twice_listed_counterexample :
  let run := run_check_cycle ascii_platform twice_listed_world None
               empty_store in
  fst (check_for_new_meetings ascii_platform twice_listed_world
         info_center_url empty_store)
  = Return [xyz_meeting; xyz_meeting; reg_meeting]
  /\ get_page twice_listed_world (m_url xyz_meeting) = None
  /\ fst (process_new_meeting ascii_platform twice_listed_world reg_meeting
            empty_store)
     = Return (info_of ascii_platform twice_listed_world reg_meeting)
  /\ info_agenda_url (info_of ascii_platform twice_listed_world reg_meeting)
     = Some (py "https://www.austintexas.gov/edims/document.cfm?id=445566")
  /\ fst run = Raise IntegrityError
  /\ map content (db (snd run)) = [(py "20260122-xyz", NO_AGENDA)].
Proof.
  vm_compute. repeat split; reflexivity.
Qed.

(** With a webhook configured, a turn of the cycle stamps the row of the
    meeting whatever the notification returned. *)
Lemma cycle_step_stamps (P : Platform) (W : World) (c : char) (hook : str)
    (processed : list MeetingInfo) (m : Meeting) (st : State) :
  existsb (has_id (m_id m)) (db st) = false ->
  exists st' r ts,
    cycle_step P W (Some (c :: hook)) processed m st
    = (Return (processed ++ [info_of P W m]), st')
    /\ In r (db st') /\ row_id r = m_id m /\ row_notified_at r = Some ts.
Proof.
  intros Hnew.
  destruct (process_new_meeting_new P W m st Hnew) as (st1 & ts & R & D).
  unfold cycle_step. unfold bind at 1. rewrite R. cbn [truthy].
  unfold bind, send_discord_notification, send, isoformat_now,
    update_notified_at, ret.
  eexists. eexists. eexists. split; [reflexivity|].
  cbn [db]. split; [|split].
  - rewrite D, map_app. apply in_or_app. right. simpl. left. reflexivity.
  - unfold has_id, row_of. cbn [row_id]. rewrite str_eqb_refl. reflexivity.
  - unfold has_id, row_of. cbn [row_id]. rewrite str_eqb_refl. reflexivity.
Qed.

(** C1, at the failing input: the webhook of [demo_world] refuses every
    message, [send_discord_notification] returns [False] for both
    meetings, and both rows get a [notified_at]. *)
Theorem notified_at_set_after_failed_notification :
  let run := run_check_cycle ascii_platform demo_world (Some webhook)
               empty_store in
  (forall url message, webhook_post demo_world url message = false)
  /\ fst (send_discord_notification demo_world
            (info_of ascii_platform demo_world reg_meeting) webhook
            empty_store) = Return false
  /\ fst run = Return (map (info_of ascii_platform demo_world)
                           [reg_meeting; xyz_meeting])
  /\ map (fun r => (row_id r, row_notified_at r)) (db (snd run))
     = [ (py "20260122-reg", Some (now demo_world 1));
         (py "20260122-xyz", Some (now demo_world 3)) ].
Proof.
  split; [reflexivity|]. vm_compute. repeat split; reflexivity.
Qed.

(** ** What one meeting's processing persists *)

Lemma process_new_meeting_returned (P : Platform) (W : World) (m : Meeting)
    (st st' : State) (info : MeetingInfo) :
  process_new_meeting P W m st = (Return info, st') ->
  info = info_of P W m
  /\ exists ts,
       db st' = db st ++ [row_of m (info_agenda_url info) (info_summary info) ts].
Proof.
  intros R.
  destruct (existsb (has_id (m_id m)) (db st)) eqn:E.
  - destruct (process_new_meeting_known P W m st E) as (st1 & R1 & _).
    rewrite R1 in R. discriminate R.
  - destruct (process_new_meeting_new P W m st E) as (st1 & ts & R1 & D).
    rewrite R1 in R. inversion R; subst. split; [reflexivity|].
    exists ts. exact D.
Qed.

Lemma simple_summary_not_empty (text : str) : _simple_summary text <> [].
Proof.
  rewrite simple_summary_spec. unfold fallback_summary_spec, heading.
  discriminate.
Qed.

Lemma lstrip_nil (s : str) : lstrip s = [] <-> forallb isspace s = true.
Proof.
  induction s as [|c s IH]; simpl; [tauto|].
  destruct (isspace c); simpl; [exact IH|split; discriminate].
Qed.

Lemma lstrip_head (s : str) (x : char) (r : str) :
  lstrip s = x :: r -> isspace x = false.
Proof.
  induction s as [|c s IH]; simpl; [discriminate|].
  destruct (isspace c) eqn:E; [exact IH|].
  intros H. inversion H; subst. exact E.
Qed.

Lemma forallb_rev {A} (f : A -> bool) (l : list A) :
  forallb f (rev l) = forallb f l.
Proof.
  induction l as [|x l IH]; simpl; [reflexivity|].
  rewrite forallb_app, IH. simpl. rewrite andb_true_r. apply andb_comm.
Qed.

(** Trimming leaves nothing exactly of a text of blanks only. *)
Lemma strip_blank (s : str) : strip s = [] <-> forallb isspace s = true.
Proof.
  unfold strip, rstrip. split.
  - intros H. apply lstrip_nil.
    destruct (lstrip s) as [|x r] eqn:E; [reflexivity|]. exfalso.
    apply (f_equal (@rev char)) in H. rewrite rev_involutive in H.
    change (rev []) with (@nil char) in H.
    apply lstrip_nil in H. rewrite forallb_rev in H.
    cbn [forallb] in H. rewrite (lstrip_head _ _ _ E) in H. discriminate H.
  - intros H. apply lstrip_nil in H. rewrite H. reflexivity.
Qed.

(** With an agenda text the summary is the one of the summarizer. *)
Lemma summary_with_text (P : Platform) (W : World) (m : Meeting) (text : str) :
  agenda_text P W m text ->
  summary_of W (agenda_of P W (m_url m)) = summary_text W text.
Proof.
  intros (links & link & url & pdf & Hp & Hf & Hj & Hu & Hc & Ht & Hn).
  unfold agenda_of. rewrite Hp, Hf, Hj. unfold summary_of.
  destruct url as [|c u]; [congruence|]. rewrite Hc, Ht.
  destruct text as [|a t]; [congruence|]. reflexivity.
Qed.

(** Without one it is one of the three fixed messages. *)
Lemma summary_without_text (P : Platform) (W : World) (m : Meeting) :
  (exists text, agenda_text P W m text)
  \/ ((forall text, ~ agenda_text P W m text)
      /\ (summary_of W (agenda_of P W (m_url m)) = NO_AGENDA
          \/ summary_of W (agenda_of P W (m_url m)) = NO_DOWNLOAD
          \/ summary_of W (agenda_of P W (m_url m)) = NO_TEXT)).
Proof.
  unfold agenda_text, agenda_of, summary_of.
  destruct (get_page W (m_url m)) as [links|] eqn:Hp.
  2:{ right. split; [|auto]. intros text (l & k & u & d & H & _).
      discriminate H. }
  destruct (find (is_agenda_link P) links) as [link|] eqn:Hf.
  2:{ right. split; [|auto]. intros text (l & k & u & d & H & H' & _).
      inversion H; subst. rewrite Hf in H'. discriminate H'. }
  destruct (urljoin P (m_url m) (link_href link)) as [[|c u]|] eqn:Hj.
  - right. split; [|auto].
    intros text (l & k & u & d & H & H' & H'' & Hu & _).
    inversion H; subst. rewrite Hf in H'. inversion H'; subst.
    rewrite Hj in H''. inversion H''; subst. now apply Hu.
  - destruct (get_content W (c :: u)) as [pdf|] eqn:Hc.
    + destruct (extract_text_from_pdf W pdf) as [[|a t]|] eqn:Ht.
      * right. split; [|auto].
        intros text (l & k & u' & d & H & H' & H'' & _ & Hc' & Ht' & Hn).
        inversion H; subst. rewrite Hf in H'. inversion H'; subst.
        rewrite Hj in H''. inversion H''; subst.
        rewrite Hc in Hc'. inversion Hc'; subst.
        rewrite Ht in Ht'. inversion Ht'; subst. now apply Hn.
      * left. exists (a :: t), links, link, (c :: u), pdf.
        repeat split; try assumption; discriminate.
      * right. split; [|auto].
        intros text (l & k & u' & d & H & H' & H'' & _ & Hc' & Ht' & _).
        inversion H; subst. rewrite Hf in H'. inversion H'; subst.
        rewrite Hj in H''. inversion H''; subst.
        rewrite Hc in Hc'. inversion Hc'; subst.
        rewrite Ht in Ht'. discriminate Ht'.
    + right. split; [|auto].
      intros text (l & k & u' & d & H & H' & H'' & _ & Hc' & _).
      inversion H; subst. rewrite Hf in H'. inversion H'; subst.
      rewrite Hj in H''. inversion H''; subst.
      rewrite Hc in Hc'. discriminate Hc'.
  - right. split; [|auto].
    intros text (l & k & u & d & H & H' & H'' & _).
    inversion H; subst. rewrite Hf in H'. inversion H'; subst.
    rewrite Hj in H''. discriminate H''.
Qed.

(** C3, as the code has it: a processed meeting is saved with its summary.
    Where no agenda text is reached (no agenda link, no download, no
    text) the summary is one of the three fixed messages and not empty;
    where the fallback summarizer writes it (no backend, or a backend
    that fails) it is the fallback summary of the agenda text and not
    empty; where the backend answers it is the reply trimmed.  So the
    summary is empty exactly when the backend answered the agenda text
    with blanks only. *)
Theorem summary_empty_only_for_blank_reply (P : Platform) (W : World)
    (m : Meeting) (st st' : State) (info : MeetingInfo) :
  process_new_meeting P W m st = (Return info, st') ->
  (exists r, In r (db st') /\ row_id r = m_id m
             /\ row_summary r = info_summary info)
  /\ ((forall text, ~ agenda_text P W m text) ->
      (info_summary info = NO_AGENDA \/ info_summary info = NO_DOWNLOAD
       \/ info_summary info = NO_TEXT)
      /\ info_summary info <> [])
  /\ (forall text,
        agenda_text P W m text ->
        match gemini_model W with
        | None =>
            info_summary info = _simple_summary text
            /\ info_summary info <> []
        | Some generate_content =>
            match generate_content (gemini_prompt text) with
            | Some reply => info_summary info = strip reply
            | None =>
                info_summary info = _simple_summary text
                /\ info_summary info <> []
            end
        end)
  /\ (info_summary info = [] <->
      exists text generate_content reply,
        agenda_text P W m text
        /\ gemini_model W = Some generate_content
        /\ generate_content (gemini_prompt text) = Some reply
        /\ forallb isspace reply = true).
Proof.
  intros R.
  destruct (process_new_meeting_returned P W m st st' info R) as (E & ts & D).
  split.
  { eexists. split; [rewrite D; apply in_or_app; right; left; reflexivity|].
    split; reflexivity. }
  subst info. unfold info_of. cbn [info_summary info_agenda_url].
  assert (Fixed : summary_of W (agenda_of P W (m_url m)) = NO_AGENDA
                  \/ summary_of W (agenda_of P W (m_url m)) = NO_DOWNLOAD
                  \/ summary_of W (agenda_of P W (m_url m)) = NO_TEXT ->
                  summary_of W (agenda_of P W (m_url m)) <> []).
  { intros [H|[H|H]]; rewrite H; discriminate. }
  assert (Text : forall text,
            agenda_text P W m text ->
            match gemini_model W with
            | None =>
                summary_of W (agenda_of P W (m_url m)) = _simple_summary text
                /\ summary_of W (agenda_of P W (m_url m)) <> []
            | Some generate_content =>
                match generate_content (gemini_prompt text) with
                | Some reply =>
                    summary_of W (agenda_of P W (m_url m)) = strip reply
                | None =>
                    summary_of W (agenda_of P W (m_url m))
                    = _simple_summary text
                    /\ summary_of W (agenda_of P W (m_url m)) <> []
                end
            end).
  { intros text Ht. rewrite (summary_with_text P W m text Ht).
    unfold summary_text. destruct (gemini_model W) as [g|].
    - destruct (g (gemini_prompt text)); [reflexivity|].
      split; [reflexivity|apply simple_summary_not_empty].
    - split; [reflexivity|apply simple_summary_not_empty]. }
  split; [|split; [exact Text|]].
  - intros Hnone.
    destruct (summary_without_text P W m) as [(text & Ht)|(_ & Hfix)].
    + exfalso. exact (Hnone text Ht).
    + split; [exact Hfix|now apply Fixed].
  - split.
    + intros Hempty.
      destruct (summary_without_text P W m) as [(text & Ht)|(_ & Hfix)].
      * specialize (Text text Ht).
        destruct (gemini_model W) as [g|] eqn:Eg.
        -- destruct (g (gemini_prompt text)) as [reply|] eqn:Er.
           ++ exists text, g, reply. repeat split; try assumption.
              apply strip_blank. rewrite <- Text. exact Hempty.
           ++ destruct Text as [_ Hne]. contradiction.
        -- destruct Text as [_ Hne]. contradiction.
      * exfalso. now apply (Fixed Hfix).
    + intros (text & g & reply & Ht & Eg & Er & Hblank).
      specialize (Text text Ht). rewrite Eg, Er in Text.
      rewrite Text. now apply strip_blank.
Qed.

Lemma summary_empty_only_for_blank_reply_witness :
  exists info st',
    process_new_meeting ascii_platform replying_world reg_meeting empty_store
    = (Return info, st')
    /\ (exists r, In r (db st') /\ row_id r = m_id reg_meeting
                  /\ row_summary r = info_summary info)
    /\ info_summary info = py "- Budget hearing on water rates.".
Proof.
  eexists. eexists.
  assert (R : process_new_meeting ascii_platform replying_world reg_meeting
                empty_store
              = (Return (info_of ascii_platform replying_world reg_meeting),
                 snd (process_new_meeting ascii_platform replying_world
                        reg_meeting empty_store)))
    by (vm_compute; reflexivity).
  split; [exact R|].
  destruct (summary_empty_only_for_blank_reply ascii_platform replying_world
              reg_meeting empty_store _ _ R) as (Hrow & _ & Htext & _).
  split; [exact Hrow|].
  apply (Htext seven_lines).
  exists [agenda_link], agenda_link,
         (py "https://www.austintexas.gov/edims/document.cfm?id=445566"),
         (@nil Byte.byte).
  repeat split; try reflexivity; discriminate.
Defined.

(** A backend that answers with blanks: the meeting is saved with an empty
    summary. *)
Lemma blank_reply_counterexample :
  let r := process_new_meeting ascii_platform blank_reply_world reg_meeting
             empty_store in
  (exists info, fst r = Return info /\ info_summary info = [])
  /\ map content (db (snd r)) = [(py "20260122-reg", [])].
Proof.
  split.
  - eexists. split; vm_compute; reflexivity.
  - vm_compute. reflexivity.
Qed.

(** C10: a processed meeting is saved with a summary that tells the step
    that failed.  When its page cannot be fetched or holds no agenda link
    the summary is [Agenda not yet available. Check back later.]; when the
    first agenda link of the page resolves and the document cannot be
    downloaded it is [Failed to download agenda PDF]; when the document is
    downloaded and gives no text it is
    [Unable to extract text from agenda PDF].  The three are not empty and
    pairwise distinct. *)
Theorem degraded_summaries_tell_the_step (P : Platform) (W : World)
    (m : Meeting) (st st' : State) (info : MeetingInfo) :
  process_new_meeting P W m st = (Return info, st') ->
  (exists r, In r (db st') /\ row_id r = m_id m
             /\ row_summary r = info_summary info
             /\ row_agenda_url r = info_agenda_url info)
  /\ (get_page W (m_url m) = None ->
      info_agenda_url info = None
      /\ info_summary info = py "Agenda not yet available. Check back later.")
  /\ (forall links,
        get_page W (m_url m) = Some links ->
        find (is_agenda_link P) links = None ->
        info_agenda_url info = None
        /\ info_summary info
           = py "Agenda not yet available. Check back later.")
  /\ (forall links link,
        get_page W (m_url m) = Some links ->
        find (is_agenda_link P) links = Some link ->
        urljoin P (m_url m) (link_href link) = None
        \/ urljoin P (m_url m) (link_href link) = Some [] ->
        info_summary info = py "Agenda not yet available. Check back later.")
  /\ (forall links link url,
        get_page W (m_url m) = Some links ->
        find (is_agenda_link P) links = Some link ->
        urljoin P (m_url m) (link_href link) = Some url ->
        url <> [] ->
        info_agenda_url info = Some url
        /\ (get_content W url = None ->
            info_summary info = py "Failed to download agenda PDF")
        /\ (forall pdf,
              get_content W url = Some pdf ->
              extract_text_from_pdf W pdf = None
              \/ extract_text_from_pdf W pdf = Some [] ->
              info_summary info
              = py "Unable to extract text from agenda PDF"))
  /\ NO_AGENDA <> NO_DOWNLOAD /\ NO_AGENDA <> NO_TEXT /\ NO_DOWNLOAD <> NO_TEXT
  /\ NO_AGENDA <> [] /\ NO_DOWNLOAD <> [] /\ NO_TEXT <> [].
Proof.
  intros R.
  destruct (process_new_meeting_returned P W m st st' info R) as (E & ts & D).
  split.
  { eexists. split; [rewrite D; apply in_or_app; right; left; reflexivity|].
    repeat split; reflexivity. }
  subst info. unfold info_of. cbn [info_summary info_agenda_url].
  unfold agenda_of.
  split; [|split; [|split; [|split; [|repeat split; discriminate]]]].
  - intros Hp. rewrite Hp. split; reflexivity.
  - intros links Hp Hf. rewrite Hp, Hf. split; reflexivity.
  - intros links link Hp Hf Hj. rewrite Hp, Hf.
    destruct Hj as [Hj|Hj]; rewrite Hj; reflexivity.
  - intros links link url Hp Hf Hj Hne. rewrite Hp, Hf, Hj.
    destruct url as [|c u]; [congruence|].
    split; [reflexivity|split].
    + intros Hc. unfold summary_of. rewrite Hc. reflexivity.
    + intros pdf Hc Ht. unfold summary_of. rewrite Hc.
      destruct Ht as [Ht|Ht]; rewrite Ht; reflexivity.
Qed.

Lemma degraded_summaries_tell_the_step_witness :
  (exists info st',
      process_new_meeting ascii_platform demo_world xyz_meeting empty_store
      = (Return info, st')
      /\ info_summary info
         = py "Agenda not yet available. Check back later.")
  /\ (exists info st',
        process_new_meeting ascii_platform no_download_world reg_meeting
          empty_store = (Return info, st')
        /\ info_summary info = py "Failed to download agenda PDF")
  /\ (exists info st',
        process_new_meeting ascii_platform no_text_world reg_meeting
          empty_store = (Return info, st')
        /\ info_summary info = py "Unable to extract text from agenda PDF").
Proof.
  assert (R1 : process_new_meeting ascii_platform demo_world xyz_meeting
                 empty_store
               = (Return (info_of ascii_platform demo_world xyz_meeting),
                  snd (process_new_meeting ascii_platform demo_world
                         xyz_meeting empty_store)))
    by (vm_compute; reflexivity).
  assert (R2 : process_new_meeting ascii_platform no_download_world
                 reg_meeting empty_store
               = (Return (info_of ascii_platform no_download_world
                            reg_meeting),
                  snd (process_new_meeting ascii_platform no_download_world
                         reg_meeting empty_store)))
    by (vm_compute; reflexivity).
  assert (R3 : process_new_meeting ascii_platform no_text_world reg_meeting
                 empty_store
               = (Return (info_of ascii_platform no_text_world reg_meeting),
                  snd (process_new_meeting ascii_platform no_text_world
                         reg_meeting empty_store)))
    by (vm_compute; reflexivity).
  split; [|split].
  - eexists. eexists. split; [exact R1|].
    destruct (degraded_summaries_tell_the_step ascii_platform demo_world
                xyz_meeting empty_store _ _ R1) as (_ & Hfetch & _).
    apply Hfetch. reflexivity.
  - eexists. eexists. split; [exact R2|].
    destruct (degraded_summaries_tell_the_step ascii_platform
                no_download_world reg_meeting empty_store _ _ R2)
      as (_ & _ & _ & _ & Hlink & _).
    destruct (Hlink [agenda_link] agenda_link
                (py "https://www.austintexas.gov/edims/document.cfm?id=445566")
                eq_refl eq_refl eq_refl ltac:(discriminate))
      as (_ & Hd & _).
    apply Hd. reflexivity.
  - eexists. eexists. split; [exact R3|].
    destruct (degraded_summaries_tell_the_step ascii_platform no_text_world
                reg_meeting empty_store _ _ R3)
      as (_ & _ & _ & _ & Hlink & _).
    destruct (Hlink [agenda_link] agenda_link
                (py "https://www.austintexas.gov/edims/document.cfm?id=445566")
                eq_refl eq_refl eq_refl ltac:(discriminate))
      as (_ & _ & Ht).
    apply (Ht (@nil Byte.byte)); [reflexivity|right; reflexivity].
Defined.

(** ** Agenda resolution *)

Lemma startswith_spec (p s : str) :
  startswith p s = true <-> exists t, s = p ++ t.
Proof.
  revert s. induction p as [|x p IH]; intros s; simpl.
  - split; [intros _; now exists s|reflexivity].
  - destruct s as [|y s].
    + split; [discriminate|intros (t & H); discriminate H].
    + unfold char_eqb. rewrite andb_true_iff, N.eqb_eq, IH. split.
      * intros (-> & t & ->). now exists t.
      * intros (t & H). inversion H; subst. split; [reflexivity|now exists t].
Qed.





(** ** The listings *)

Lemma str_compare_refl (a : str) : str_compare a a = Eq.
Proof.
  induction a as [|x a IH]; simpl; [reflexivity|].
  now rewrite N.compare_refl.
Qed.

Lemma str_compare_antisym (a b : str) :
  str_compare b a = CompOpp (str_compare a b).
Proof.
  revert b. induction a as [|x a IH]; intros [|y b]; simpl; try reflexivity.
  rewrite (N.compare_antisym x y).
  destruct (x ?= y); simpl; [apply IH|reflexivity|reflexivity].
Qed.

Lemma str_compare_not_lt_trans (a b c : str) :
  str_compare a b <> Lt -> str_compare b c <> Lt -> str_compare a c <> Lt.
Proof.
  revert b c. induction a as [|x a IH]; intros [|y b] [|z c]; simpl;
    try congruence.
  destruct (N.compare_spec x y), (N.compare_spec y z), (N.compare_spec x z);
    subst; try lia; try congruence.
  apply IH.
Qed.

Lemma newer_or_same_trans (x y z : Row) :
  newer_or_same x y -> newer_or_same y z -> newer_or_same x z.
Proof. apply str_compare_not_lt_trans. Qed.

Lemma date_ltb_false (x y : Row) : date_ltb x y = false <-> newer_or_same x y.
Proof.
  unfold date_ltb, newer_or_same.
  destruct (str_compare (row_date x) (row_date y));
    split; congruence.
Qed.

Lemma date_ltb_true (x y : Row) : date_ltb x y = true -> newer_or_same y x.
Proof.
  unfold date_ltb, newer_or_same. rewrite (str_compare_antisym (row_date x)).
  destruct (str_compare (row_date x) (row_date y)); simpl; congruence.
Qed.

Lemma insert_desc_in (r y : Row) (l : list Row) :
  In y (insert_desc r l) <-> y = r \/ In y l.
Proof.
  induction l as [|a l IH]; simpl.
  - intuition congruence.
  - destruct (date_ltb r a); simpl; [rewrite IH|]; intuition congruence.
Qed.

Lemma insert_desc_perm (r : Row) (l : list Row) :
  Permutation (insert_desc r l) (r :: l).
Proof.
  induction l as [|a l IH]; simpl; [reflexivity|].
  destruct (date_ltb r a); [|reflexivity].
  rewrite IH. apply perm_swap.
Qed.

Lemma order_by_date_desc_perm (t : list Row) :
  Permutation (order_by_date_desc t) t.
Proof.
  induction t as [|r t IH]; simpl; [reflexivity|].
  rewrite insert_desc_perm. now constructor.
Qed.

Lemma insert_desc_sorted (r : Row) (l : list Row) :
  StronglySorted newer_or_same l ->
  StronglySorted newer_or_same (insert_desc r l).
Proof.
  induction l as [|a l IH]; intros S; simpl.
  - constructor; constructor.
  - inversion S as [|a' l' S' F]; subst.
    destruct (date_ltb r a) eqn:E.
    + constructor; [now apply IH|].
      apply Forall_forall. intros y Hy. apply insert_desc_in in Hy.
      destruct Hy as [->|Hy]; [now apply date_ltb_true|].
      rewrite Forall_forall in F. now apply F.
    + apply date_ltb_false in E. constructor; [exact S|].
      constructor; [exact E|].
      apply Forall_forall. intros y Hy. rewrite Forall_forall in F.
      apply (newer_or_same_trans r a y E). now apply F.
Qed.

Lemma order_by_date_desc_sorted (t : list Row) :
  StronglySorted newer_or_same (order_by_date_desc t).
Proof.
  induction t as [|r t IH]; simpl; [constructor|].
  now apply insert_desc_sorted.
Qed.

Lemma sorted_precedes (l : list Row) (x y : Row) :
  StronglySorted newer_or_same l -> precedes x y l -> newer_or_same x y.
Proof.
  induction l as [|a l IH]; intros S H; simpl in H; [destruct H|].
  inversion S as [|a' l' S' F]; subst.
  destruct H as [[-> Hy]|H]; [|now apply IH].
  rewrite Forall_forall in F. now apply F.
Qed.

(** Where an insertion puts [r]: behind nothing it is not older than. *)
Lemma insert_desc_precedes (r x y : Row) (l : list Row) :
  precedes x y (insert_desc r l) ->
  precedes x y l
  \/ (x = r /\ In y l)
  \/ (y = r /\ In x l /\ date_ltb r x = true).
Proof.
  induction l as [|a l IH]; simpl.
  - intros [[_ []]|[]].
  - destruct (date_ltb r a) eqn:E; simpl.
    + intros [[-> Hy]|H].
      * apply insert_desc_in in Hy. destruct Hy as [->|Hy].
        -- right. right. auto.
        -- left. left. auto.
      * destruct (IH H) as [H1|[[-> H2]|(-> & H2 & H3)]].
        -- left. now right.
        -- right. left. auto.
        -- right. right. auto.
    + intros [[-> Hy]|H].
      * right. left. auto.
      * left. exact H.
Qed.

(** The sort keeps rows of one date in the order of the table. *)
Lemma order_by_date_desc_stable (t : list Row) (x y : Row) :
  precedes x y (order_by_date_desc t) ->
  row_date x = row_date y ->
  precedes x y t.
Proof.
  induction t as [|r t IH]; simpl; [intros []|].
  intros H E.
  destruct (insert_desc_precedes _ _ _ _ H) as [H1|[[-> H2]|(-> & H2 & H3)]].
  - right. now apply IH.
  - left. split; [reflexivity|].
    apply (Permutation_in _ (order_by_date_desc_perm t)). exact H2.
  - exfalso. unfold date_ltb in H3. rewrite E, str_compare_refl in H3.
    discriminate H3.
Qed.

Lemma precedes_in {A} (x y : A) (l : list A) :
  precedes x y l -> In x l /\ In y l.
Proof.
  induction l as [|a l IH]; simpl; [intros []|].
  intros [[-> Hy]|H]; [auto|]. destruct (IH H). auto.
Qed.





Lemma precedes_filter {A} (f : A -> bool) (x y : A) (l : list A) :
  precedes x y (filter f l) -> precedes x y l.
Proof.
  induction l as [|a l IH]; simpl; [tauto|].
  destruct (f a); simpl.
  - intros [[-> Hy]|H]; [|right; now apply IH].
    left. split; [reflexivity|]. apply filter_In in Hy. tauto.
  - intros H. right. now apply IH.
Qed.

(** [precedes] in the usual words. *)
Lemma precedes_split {A} (x y : A) (l : list A) :
  precedes x y l <-> exists l1 l2 l3, l = l1 ++ x :: l2 ++ y :: l3.
Proof.
  induction l as [|a l IH]; simpl.
  - split; [intros []|intros ([|? ?] & ? & ? & H); discriminate H].
  - rewrite IH. split.
    + intros [[-> Hy]|(l1 & l2 & l3 & ->)].
      * apply in_split in Hy. destruct Hy as (l2 & l3 & ->).
        now exists [], l2, l3.
      * now exists (a :: l1), l2, l3.
    + intros ([|b l1] & l2 & l3 & H); inversion H; subst.
      * left. split; [reflexivity|]. apply in_or_app. right. now left.
      * right. now exists l1, l2, l3.
Qed.





(** * Further properties of the pipeline *)

(** ** The store under a check cycle *)

Lemma update_other_ids (f : Row -> Row) (i : str) (table : list Row) :
  existsb (has_id i) table = false ->
  map (fun r => if has_id i r then f r else r) table = table.
Proof.
  induction table as [|r table IH]; simpl; [reflexivity|].
  intros H. apply orb_false_iff in H. destruct H as [Hr Ht].
  rewrite Hr, IH by exact Ht. reflexivity.
Qed.

Lemma posts_logged (r : Request) (st : State) :
  posts (logged r st) = posts st ++ (if is_post r then [r] else []).
Proof.
  unfold posts, logged. cbn [requests]. rewrite filter_app. simpl.
  destruct (is_post r); reflexivity.
Qed.

(** Processing a meeting sends no webhook message, whatever it ends in. *)
Lemma process_new_meeting_posts (P : Platform) (W : World) (m : Meeting)
    (st : State) :
  posts (snd (process_new_meeting P W m st)) = posts st.
Proof.
  assert (Save : forall agenda summary (info : MeetingInfo) st1,
            posts st1 = posts st ->
            posts (snd ((save_meeting W m agenda summary ;;; ret info) st1))
            = posts st).
  { intros agenda summary info st1 E.
    unfold bind, save_meeting, bind, isoformat_now, insert_row, ret.
    cbn [db clock requests row_id].
    destruct (existsb (has_id (m_id m)) (db st1)); exact E. }
  assert (Lg : posts (logged (HttpGet (m_url m)) st) = posts st).
  { rewrite posts_logged. apply app_nil_r. }
  unfold process_new_meeting.
  unfold bind at 1. rewrite get_agenda_url_run.
  destruct (agenda_of P W (m_url m)) as [[|c u]|].
  - unfold bind at 1. unfold ret at 1. apply Save. exact Lg.
  - unfold bind at 1. unfold bind at 1. unfold download_pdf, bind, send, ret.
    destruct (get_content W (c :: u)) as [content0|].
    + destruct (extract_text_from_pdf W content0) as [[|a t]|].
      * apply Save. rewrite <- Lg. unfold posts. cbn [requests].
        rewrite filter_app. apply app_nil_r.
      * unfold summarize_agenda.
        destruct (gemini_model W) as [g|].
        -- unfold bind, send.
           destruct (g (gemini_prompt (a :: t))); apply Save;
             rewrite <- Lg; unfold posts; cbn [requests logged];
             rewrite !filter_app; simpl; rewrite !app_nil_r; reflexivity.
        -- apply Save. rewrite <- Lg. unfold posts. cbn [requests].
           rewrite filter_app. apply app_nil_r.
      * apply Save. rewrite <- Lg. unfold posts. cbn [requests].
        rewrite filter_app. apply app_nil_r.
    + apply Save. rewrite <- Lg. unfold posts. cbn [requests].
      rewrite filter_app. apply app_nil_r.
  - unfold bind at 1. unfold ret at 1. apply Save. exact Lg.
Qed.

(** One turn of the cycle on a meeting the store does not know, in full:
    one row is appended, stamped exactly when a webhook is configured, and
    the webhook gets one message, the one built from the meeting. *)
Lemma cycle_step_appends (P : Platform) (W : World) (hook : option str)
    (processed : list MeetingInfo) (m : Meeting) (st : State) :
  existsb (has_id (m_id m)) (db st) = false ->
  exists st' row,
    cycle_step P W hook processed m st
    = (Return (processed ++ [info_of P W m]), st')
    /\ db st' = db st ++ [row]
    /\ content row = (m_id m, summary_of W (agenda_of P W (m_url m)))
    /\ (row_notified_at row = None <-> truthy hook = false)
    /\ posts st'
       = posts st
         ++ (if truthy hook
             then [WebhookPost (match hook with Some u => u | None => [] end)
                     (discord_message (info_of P W m))]
             else []).
Proof.
  intros Hnew.
  destruct (process_new_meeting_new P W m st Hnew) as (st1 & ts & R & D).
  pose proof (process_new_meeting_posts P W m st) as Hp.
  rewrite R in Hp. cbn [snd] in Hp.
  unfold cycle_step. unfold bind at 1. rewrite R.
  destruct (truthy hook) eqn:Hh.
  - unfold bind, send_discord_notification, send, isoformat_now,
      update_notified_at, ret. cbn [db clock requests].
    eexists. eexists. split; [reflexivity|].
    cbn [db]. rewrite D, map_app.
    rewrite (update_other_ids _ _ _ Hnew). cbn [map].
    unfold has_id at 1, row_of at 1. cbn [row_id]. rewrite str_eqb_refl.
    split; [reflexivity|split; [reflexivity|split]].
    + cbn [set_notified_at row_notified_at]. split; discriminate.
    + unfold posts in *. cbn [requests]. rewrite filter_app, Hp.
      reflexivity.
  - unfold bind, ret. exists st1. eexists. split; [reflexivity|].
    split; [exact D|split; [reflexivity|split]].
    + cbn [row_of row_notified_at]. split; reflexivity.
    + rewrite Hp. symmetry. apply app_nil_r.
Qed.

(** Whatever a turn of the cycle ends in, the rows of the store stay as
    they are and in place; at most one row is added behind them. *)
Lemma cycle_step_extends (P : Platform) (W : World) (hook : option str)
    (processed : list MeetingInfo) (m : Meeting) (st : State) :
  exists added,
    db (snd (cycle_step P W hook processed m st)) = db st ++ added
    /\ (NoDup (ids (db st)) -> NoDup (ids (db st ++ added)))
    /\ Forall (fun r => row_notified_at r = None <-> truthy hook = false)
              added.
Proof.
  destruct (existsb (has_id (m_id m)) (db st)) eqn:E.
  - destruct (cycle_step_known P W hook processed m st E) as (st' & R & D).
    exists []. rewrite R, app_nil_r. cbn [snd]. auto.
  - destruct (cycle_step_appends P W hook processed m st E)
      as (st' & row & R & D & C & N & _).
    exists [row]. rewrite R. cbn [snd]. split; [exact D|split].
    + intros Hnd. unfold ids. rewrite map_app. cbn [map].
      apply NoDup_app; [exact Hnd|repeat constructor; intros []|].
      intros i Hi [Hj|[]]. subst i.
      apply not_existsb_has_id in E. apply E.
      unfold content in C. injection C as Hid Hs.
      unfold ids. rewrite <- Hid. exact Hi.
    + constructor; [exact N|constructor].
Qed.

Lemma for_each_extends (P : Platform) (W : World) (hook : option str)
    (ms : list Meeting) :
  forall (processed : list MeetingInfo) (st : State),
  exists added,
    db (snd (for_each ms processed (cycle_step P W hook) st)) = db st ++ added
    /\ (NoDup (ids (db st)) -> NoDup (ids (db st ++ added)))
    /\ Forall (fun r => row_notified_at r = None <-> truthy hook = false)
              added.
Proof.
  induction ms as [|m ms IH]; intros processed st.
  - exists []. simpl. rewrite app_nil_r. auto.
  - destruct (cycle_step_extends P W hook processed m st)
      as (added1 & D1 & N1 & F1).
    simpl. unfold bind.
    destruct (cycle_step P W hook processed m st) as [[acc|e] st1] eqn:R;
      cbn [snd] in D1.
    + destruct (IH acc st1) as (added2 & D2 & N2 & F2).
      exists (added1 ++ added2). rewrite D2, D1, <- app_assoc.
      split; [reflexivity|split].
      * intros Hnd. rewrite app_assoc, <- D1. apply N2.
        rewrite D1. now apply N1.
      * apply Forall_app. auto.
    + exists added1. cbn [snd]. auto.
Qed.

(** X1: a check cycle only appends to the table: whatever it ends in, the
    rows the store held before are all still there, unchanged and in
    place. *)
Theorem cycle_only_appends (P : Platform) (W : World) (hook : option str)
    (st : State) :
  exists added, db (snd (run_check_cycle P W hook st)) = db st ++ added.
Proof.
  rewrite run_check_cycle_run.
  destruct (discovered P W info_center_url (db st)) as [|m ms].
  - exists []. cbn [snd logged db]. now rewrite app_nil_r.
  - destruct (for_each_extends P W hook (m :: ms) []
                (logged (HttpGet info_center_url) st)) as (added & D & _).
    exists added. exact D.
Qed.

(** X2: a check cycle keeps the ids of the table pairwise distinct,
    whatever it ends in. *)
Theorem cycle_keeps_ids_distinct (P : Platform) (W : World)
    (hook : option str) (st : State) :
  NoDup (ids (db st)) ->
  NoDup (ids (db (snd (run_check_cycle P W hook st)))).
Proof.
  intros Hnd. rewrite run_check_cycle_run.
  destruct (discovered P W info_center_url (db st)) as [|m ms].
  - exact Hnd.
  - destruct (for_each_extends P W hook (m :: ms) []
                (logged (HttpGet info_center_url) st)) as (added & D & N & _).
    rewrite D. apply N. exact Hnd.
Qed.

Lemma cycle_keeps_ids_distinct_witness :
  NoDup (ids (db (snd (run_check_cycle ascii_platform repeated_link_world
                         (Some webhook) empty_store)))).
Proof.
  apply cycle_keeps_ids_distinct. constructor.
Defined.

(** The cycle over candidates with pairwise distinct ids, none of them in
    the store, in full. *)
Lemma cycle_all_appends (P : Platform) (W : World) (hook : option str)
    (ms : list Meeting) :
  forall (processed : list MeetingInfo) (st : State),
    NoDup (map m_id ms) ->
    (forall m, In m ms -> ~ In (m_id m) (ids (db st))) ->
    exists st' rows,
      for_each ms processed (cycle_step P W hook) st
      = (Return (processed ++ map (info_of P W) ms), st')
      /\ db st' = db st ++ rows
      /\ map content rows
         = map (fun m => (m_id m, summary_of W (agenda_of P W (m_url m)))) ms
      /\ posts st'
         = posts st
           ++ (if truthy hook
               then map (fun m =>
                           WebhookPost
                             (match hook with Some u => u | None => [] end)
                             (discord_message (info_of P W m))) ms
               else []).
Proof.
  induction ms as [|m ms IH]; intros processed st Hnd Hfresh.
  - exists st, []. simpl. rewrite !app_nil_r.
    destruct (truthy hook); rewrite ?app_nil_r; auto.
  - inversion Hnd as [|x l Hm Hnd']; subst.
    assert (Hnew : existsb (has_id (m_id m)) (db st) = false).
    { apply not_existsb_has_id. apply Hfresh. now left. }
    destruct (cycle_step_appends P W hook processed m st Hnew)
      as (st1 & row & R & D & C & _ & Hp).
    destruct (IH (processed ++ [info_of P W m]) st1 Hnd')
      as (st' & rows & R' & D' & C' & Hp').
    { intros m' Hin Hid. rewrite D in Hid. unfold ids in Hid.
      rewrite map_app in Hid. apply in_app_or in Hid.
      destruct Hid as [Hid|[Hid|[]]].
      - apply (Hfresh m' (or_intror Hin) Hid).
      - apply Hm. unfold content in C. injection C as Hrow _.
        rewrite <- Hrow, Hid. now apply in_map. }
    exists st', (row :: rows). split; [|split; [|split]].
    + simpl. unfold bind at 1. rewrite R, R', <- app_assoc. reflexivity.
    + rewrite D', D, <- app_assoc. reflexivity.
    + simpl. now rewrite C, C'.
    + rewrite Hp', Hp, <- app_assoc.
      destruct (truthy hook); reflexivity.
Qed.

(** X3: when the candidates of the listing have pairwise distinct ids, the
    cycle returns one record for each, in the order of the listing, and
    appends one row for each to the table, in the same order, with the
    summary the meeting's own steps give. *)
Theorem cycle_follows_the_listing (P : Platform) (W : World)
    (hook : option str) (st : State) (candidates : list Meeting) :
  fst (check_for_new_meetings P W info_center_url st) = Return candidates ->
  NoDup (map m_id candidates) ->
  exists st' rows,
    run_check_cycle P W hook st = (Return (map (info_of P W) candidates), st')
    /\ db st' = db st ++ rows
    /\ map row_id rows = map m_id candidates
    /\ map row_summary rows = map info_summary (map (info_of P W) candidates).
Proof.
  intros Hc Hnd.
  rewrite check_for_new_meetings_run in Hc. cbn [fst] in Hc.
  injection Hc as Hd. rewrite <- Hd in *. clear Hd.
  rewrite run_check_cycle_run.
  destruct (discovered P W info_center_url (db st)) as [|m ms] eqn:D.
  - eexists. exists []. rewrite app_nil_r. cbn [logged db]. auto.
  - destruct (cycle_all_appends P W hook (m :: ms) []
                (logged (HttpGet info_center_url) st) Hnd)
      as (st' & rows & R & Hdb & C & _).
    { intros m' Hm'. cbn [db logged].
      apply (discovered_fresh P W info_center_url). rewrite D. exact Hm'. }
    exists st', rows. split; [exact R|split; [exact Hdb|]].
    split.
    + apply (f_equal (map fst)) in C. rewrite !map_map in C. exact C.
    + apply (f_equal (map snd)) in C. rewrite !map_map in C.
      rewrite map_map. exact C.
Qed.

Lemma cycle_follows_the_listing_witness :
  exists st' rows,
    run_check_cycle ascii_platform demo_world None empty_store
    = (Return (map (info_of ascii_platform demo_world)
                   [reg_meeting; xyz_meeting]), st')
    /\ db st' = rows
    /\ map row_id rows = [py "20260122-reg"; py "20260122-xyz"].
Proof.
  destruct (cycle_follows_the_listing ascii_platform demo_world None
              empty_store [reg_meeting; xyz_meeting] eq_refl)
    as (st' & rows & R & D & I & _).
  - change (NoDup [py "20260122-reg"; py "20260122-xyz"]).
    repeat constructor; simpl; intuition discriminate.
  - exists st', rows. auto.
Defined.

(** X5: with a webhook configured and candidates of pairwise distinct ids,
    the cycle sends the webhook one message for each processed meeting, in
    the order of the listing and none else; the summary a message carries
    is the first 1000 characters of the saved one. *)
Theorem one_message_per_meeting (P : Platform) (W : World) (c : char)
    (u : str) (st : State) (candidates : list Meeting) :
  fst (check_for_new_meetings P W info_center_url st) = Return candidates ->
  NoDup (map m_id candidates) ->
  posts (snd (run_check_cycle P W (Some (c :: u)) st))
  = posts st
    ++ map (fun m => WebhookPost (c :: u) (discord_message (info_of P W m)))
           candidates
  /\ forall m,
       embed_summary (discord_message (info_of P W m))
       = firstn 1000 (summary_of W (agenda_of P W (m_url m))).
Proof.
  intros Hc Hnd. split; [|reflexivity].
  rewrite check_for_new_meetings_run in Hc. cbn [fst] in Hc.
  injection Hc as Hd. rewrite <- Hd in *. clear Hd.
  rewrite run_check_cycle_run.
  assert (Lg : posts (logged (HttpGet info_center_url) st) = posts st).
  { rewrite posts_logged. apply app_nil_r. }
  destruct (discovered P W info_center_url (db st)) as [|m ms] eqn:D.
  - cbn [snd map]. rewrite Lg. symmetry. apply app_nil_r.
  - destruct (cycle_all_appends P W (Some (c :: u)) (m :: ms) []
                (logged (HttpGet info_center_url) st) Hnd)
      as (st' & rows & R & _ & _ & Hp).
    { intros m' Hm'. cbn [db logged].
      apply (discovered_fresh P W info_center_url). rewrite D. exact Hm'. }
    rewrite R. cbn [snd]. rewrite Hp, Lg. reflexivity.
Qed.

Lemma one_message_per_meeting_witness :
  posts (snd (run_check_cycle ascii_platform demo_world (Some webhook)
                empty_store))
  = map (fun m => WebhookPost webhook
                    (discord_message (info_of ascii_platform demo_world m)))
        [reg_meeting; xyz_meeting].
Proof.
  refine (proj1 (one_message_per_meeting ascii_platform demo_world _ _
                   empty_store [reg_meeting; xyz_meeting] eq_refl _)).
  change (NoDup [py "20260122-reg"; py "20260122-xyz"]).
  repeat constructor; simpl; intuition discriminate.
Defined.

Lemma cycle_step_quiet (P : Platform) (W : World) (hook : option str)
    (processed : list MeetingInfo) (m : Meeting) (st : State) :
  truthy hook = false ->
  posts (snd (cycle_step P W hook processed m st)) = posts st.
Proof.
  intros Hh.
  destruct (existsb (has_id (m_id m)) (db st)) eqn:E.
  - pose proof (process_new_meeting_posts P W m st) as Hp.
    destruct (process_new_meeting_known P W m st E) as (st1 & R & _).
    rewrite R in Hp. unfold cycle_step. unfold bind at 1. rewrite R.
    exact Hp.
  - destruct (cycle_step_appends P W hook processed m st E)
      as (st' & row & R & _ & _ & _ & Hp).
    rewrite R. cbn [snd]. rewrite Hp, Hh. apply app_nil_r.
Qed.

(** X4: without a webhook (none, or an empty one) a cycle sends no webhook
    message and stamps no row: every row it adds has no [notified_at],
    whatever the cycle ends in. *)
Theorem no_webhook_no_notification (P : Platform) (W : World)
    (hook : option str) (st : State) :
  truthy hook = false ->
  posts (snd (run_check_cycle P W hook st)) = posts st
  /\ exists added,
       db (snd (run_check_cycle P W hook st)) = db st ++ added
       /\ Forall (fun r => row_notified_at r = None) added.
Proof.
  intros Hh. rewrite run_check_cycle_run.
  assert (Lg : posts (logged (HttpGet info_center_url) st) = posts st).
  { rewrite posts_logged. apply app_nil_r. }
  destruct (discovered P W info_center_url (db st)) as [|m ms].
  - cbn [snd]. split; [exact Lg|]. exists []. cbn [logged db].
    rewrite app_nil_r. auto.
  - split.
    + rewrite <- Lg. generalize (logged (HttpGet info_center_url) st).
      generalize (@nil MeetingInfo). generalize (m :: ms).
      intros l. induction l as [|x l IH]; intros acc s; [reflexivity|].
      simpl. unfold bind.
      pose proof (cycle_step_quiet P W hook acc x s Hh) as Hq.
      destruct (cycle_step P W hook acc x s) as [[acc'|e] s1];
        cbn [snd] in Hq.
      * rewrite IH. exact Hq.
      * exact Hq.
    + destruct (for_each_extends P W hook (m :: ms) []
                  (logged (HttpGet info_center_url) st))
        as (added & D & _ & F).
      exists added. split; [exact D|].
      revert F. apply Forall_impl. intros r Hr. now apply Hr.
Qed.

Lemma no_webhook_no_notification_witness :
  posts (snd (run_check_cycle ascii_platform demo_world (Some []) empty_store))
  = []
  /\ exists added,
       db (snd (run_check_cycle ascii_platform demo_world (Some [])
                  empty_store)) = added
       /\ Forall (fun r => row_notified_at r = None) added.
Proof.
  exact (no_webhook_no_notification ascii_platform demo_world (Some [])
           empty_store eq_refl).
Defined.

(** X6: a meeting is saved exactly when its id is not yet in the table;
    once saved, [meeting_exists] finds its id and answers for every other
    id as before; a known id makes [save_meeting] raise and leaves the
    table as it was. *)
Theorem save_then_exists (W : World) (m : Meeting) (agenda_url : option str)
    (summary : str) (st : State) :
  (fst (meeting_exists (m_id m) st) = Return false <->
   fst (save_meeting W m agenda_url summary st) = Return tt)
  /\ (fst (save_meeting W m agenda_url summary st) = Return tt ->
      fst (meeting_exists (m_id m)
             (snd (save_meeting W m agenda_url summary st))) = Return true
      /\ forall i, i <> m_id m ->
           fst (meeting_exists i
                  (snd (save_meeting W m agenda_url summary st)))
           = fst (meeting_exists i st))
  /\ (fst (meeting_exists (m_id m) st) = Return true ->
      fst (save_meeting W m agenda_url summary st) = Raise IntegrityError
      /\ db (snd (save_meeting W m agenda_url summary st)) = db st).
Proof.
  unfold meeting_exists. cbn [fst].
  destruct (existsb (has_id (m_id m)) (db st)) eqn:E.
  - rewrite (save_meeting_known W m agenda_url summary st E). cbn [fst snd db].
    split; [split; discriminate|split; [discriminate|auto]].
  - rewrite (save_meeting_new W m agenda_url summary st E). cbn [fst snd db].
    split; [split; reflexivity|split; [|discriminate]].
    intros _. split.
    + rewrite existsb_app. simpl. unfold has_id at 2. cbn [row_of row_id].
      rewrite str_eqb_refl, orb_true_r. reflexivity.
    + intros i Hi. rewrite existsb_app. simpl.
      unfold has_id at 2. cbn [row_of row_id].
      destruct (str_eqb (m_id m) i) eqn:Ei.
      * apply str_eqb_eq in Ei. congruence.
      * now rewrite !orb_false_r.
Qed.

Lemma save_then_exists_witness :
  fst (save_meeting demo_world reg_meeting None NO_AGENDA empty_store)
  = Return tt
  /\ fst (meeting_exists (m_id reg_meeting)
            (snd (save_meeting demo_world reg_meeting None NO_AGENDA
                    empty_store))) = Return true.
Proof.
  destruct (save_then_exists demo_world reg_meeting None NO_AGENDA
              empty_store) as (H1 & H2 & _).
  split; [apply H1; reflexivity|].
  apply H2. apply H1. reflexivity.
Defined.

Lemma cycle_step_posts_known (P : Platform) (W : World) (hook : option str)
    (processed : list MeetingInfo) (m : Meeting) (st : State) :
  existsb (has_id (m_id m)) (db st) = true ->
  posts (snd (cycle_step P W hook processed m st)) = posts st.
Proof.
  intros E.
  pose proof (process_new_meeting_posts P W m st) as Hp.
  destruct (process_new_meeting_known P W m st E) as (st1 & R & _).
  rewrite R in Hp. unfold cycle_step. unfold bind at 1. rewrite R.
  exact Hp.
Qed.

(** Every webhook message of the loop is the message of a meeting of the
    loop, sent with the webhook configured. *)
Lemma for_each_posts (P : Platform) (W : World) (hook : option str)
    (ms : list Meeting) :
  forall (processed : list MeetingInfo) (st : State) (r : Request),
    In r (posts (snd (for_each ms processed (cycle_step P W hook) st))) ->
    In r (posts st)
    \/ exists m u,
         In m ms /\ hook = Some u /\ u <> []
         /\ r = WebhookPost u (discord_message (info_of P W m)).
Proof.
  induction ms as [|m ms IH]; intros processed st r Hr; [now left|].
  simpl in Hr. unfold bind in Hr.
  destruct (existsb (has_id (m_id m)) (db st)) eqn:E.
  - pose proof (cycle_step_posts_known P W hook processed m st E) as Hk.
    destruct (cycle_step_known P W hook processed m st E) as (st1 & R & _).
    rewrite R in Hr, Hk. cbn [snd] in Hr, Hk. rewrite Hk in Hr. now left.
  - destruct (cycle_step_appends P W hook processed m st E)
      as (st1 & row & R & _ & _ & _ & Hp).
    rewrite R in Hr.
    destruct (IH _ _ _ Hr) as [Hin|(m' & u & Hm' & Hh & Hu & Hr')].
    + rewrite Hp in Hin. apply in_app_or in Hin.
      destruct Hin as [Hin|Hin]; [now left|].
      right. destruct hook as [[|c u]|]; cbn [truthy] in Hin;
        try (now destruct Hin).
      destruct Hin as [<-|[]]. exists m, (c :: u).
      split; [now left|split; [reflexivity|split; [discriminate|reflexivity]]].
    + right. exists m', u. split; [now right|auto].
Qed.

(** X7: a check cycle notifies only what it has just discovered: every
    webhook message it sends, whatever it ends in, is the message of a
    candidate of this cycle, whose id the store did not hold when the
    cycle began; so a cycle run again sends nothing for a meeting already
    stored. *)
Theorem only_new_meetings_are_notified (P : Platform) (W : World)
    (hook : option str) (st : State) (r : Request) :
  In r (posts (snd (run_check_cycle P W hook st))) ->
  In r (posts st)
  \/ exists m u candidates,
       fst (check_for_new_meetings P W info_center_url st) = Return candidates
       /\ In m candidates
       /\ ~ In (m_id m) (ids (db st))
       /\ hook = Some u /\ u <> []
       /\ r = WebhookPost u (discord_message (info_of P W m)).
Proof.
  rewrite run_check_cycle_run, check_for_new_meetings_run. cbn [fst].
  assert (Lg : posts (logged (HttpGet info_center_url) st) = posts st).
  { rewrite posts_logged. apply app_nil_r. }
  destruct (discovered P W info_center_url (db st)) as [|m0 ms] eqn:D.
  - cbn [snd]. rewrite Lg. now left.
  - intros Hr.
    destruct (for_each_posts P W hook (m0 :: ms) [] _ r Hr)
      as [Hin|(m & u & Hm & Hh & Hu & Hr')].
    + rewrite Lg in Hin. now left.
    + right. exists m, u, (m0 :: ms).
      split; [reflexivity|split; [exact Hm|split; [|auto]]].
      apply (discovered_fresh P W info_center_url). rewrite D. exact Hm.
Qed.

Lemma only_new_meetings_are_notified_witness :
  exists m,
    ~ In (m_id m) (ids (db empty_store))
    /\ WebhookPost webhook
         (discord_message (info_of ascii_platform demo_world xyz_meeting))
       = WebhookPost webhook
           (discord_message (info_of ascii_platform demo_world m)).
Proof.
  destruct (only_new_meetings_are_notified ascii_platform demo_world
              (Some webhook) empty_store
              (WebhookPost webhook
                 (discord_message
                    (info_of ascii_platform demo_world xyz_meeting))))
    as [Hold|(m & u & candidates & _ & _ & Hfresh & Hh & _ & Hr)].
  - vm_compute. right. left. reflexivity.
  - destruct Hold.
  - exists m. split; [exact Hfresh|].
    injection Hh as <-. exact Hr.
Defined.

(** X8: when the listing page cannot be fetched, or holds no meeting link,
    the cycle returns the empty list after its one request: no row is
    written, no clock is read, nothing else is asked. *)
Theorem nothing_listed_nothing_done (P : Platform) (W : World)
    (hook : option str) (st : State) :
  get_page W info_center_url = None
  \/ (exists links,
        get_page W info_center_url = Some links
        /\ forall link, In link links ->
                        extract_meeting_id P (link_href link) = None) ->
  run_check_cycle P W hook st
  = (Return [],
     {| db := db st;
        clock := clock st;
        requests := requests st ++ [HttpGet info_center_url] |}).
Proof.
  intros H. rewrite run_check_cycle_run.
  assert (D : discovered P W info_center_url (db st) = []).
  { unfold discovered. destruct H as [H|(links & H & Hnone)]; rewrite H.
    - reflexivity.
    - rewrite (discover_all_known P (db st) info_center_url links []);
        [reflexivity|].
      intros link i Hl Hi. rewrite (Hnone link Hl) in Hi. discriminate Hi. }
  rewrite D. reflexivity.
Qed.

Lemma nothing_listed_nothing_done_witness :
  run_check_cycle ascii_platform
    {| get_page := fun _ => None;
       get_content := get_content demo_world;
       PDF_LIBRARY := pymupdf;
       fitz_pages := fitz_pages demo_world;
       plumber_pages := plumber_pages demo_world;
       gemini_model := None;
       webhook_post := webhook_post demo_world;
       now := now demo_world |}
    (Some webhook) empty_store
  = (Return [],
     {| db := []; clock := 0; requests := [HttpGet info_center_url] |}).
Proof.
  apply (nothing_listed_nothing_done ascii_platform _ (Some webhook)
           empty_store).
  left. reflexivity.
Defined.

Lemma discover_unresolvable (P : Platform) (table : list Row) (url : str)
    (links : list Link) (link : Link) (i : str) :
  In link links ->
  extract_meeting_id P (link_href link) = Some i ->
  ~ In i (ids table) ->
  urljoin P url (link_href link) = None ->
  forall acc, discover P table url links acc = None.
Proof.
  intros Hin Hi Hnew Hjoin.
  induction links as [|l links IH]; [destruct Hin|].
  intros acc. simpl.
  destruct Hin as [->|Hin].
  - rewrite Hi. apply not_existsb_has_id in Hnew. rewrite Hnew, Hjoin.
    reflexivity.
  - destruct (extract_meeting_id P (link_href l)) as [j|]; [|now apply IH].
    destruct (existsb (has_id j) table); [now apply IH|].
    destruct (urljoin P url (link_href l)); [now apply IH|reflexivity].
Qed.

(** X9: one link to an unknown meeting whose target [urljoin] refuses
    empties the whole discovery: the exception leaves the loop, the
    candidates found before it are dropped with it, and the cycle
    processes nothing. *)
Theorem unresolvable_link_drops_all (P : Platform) (W : World)
    (hook : option str) (st : State) (links : list Link) (link : Link)
    (i : str) :
  get_page W info_center_url = Some links ->
  In link links ->
  extract_meeting_id P (link_href link) = Some i ->
  ~ In i (ids (db st)) ->
  urljoin P info_center_url (link_href link) = None ->
  fst (check_for_new_meetings P W info_center_url st) = Return []
  /\ fst (run_check_cycle P W hook st) = Return []
  /\ db (snd (run_check_cycle P W hook st)) = db st.
Proof.
  intros Hp Hin Hi Hnew Hjoin.
  assert (D : discovered P W info_center_url (db st) = []).
  { unfold discovered. rewrite Hp.
    now rewrite (discover_unresolvable P (db st) info_center_url links link i). }
  rewrite check_for_new_meetings_run, run_check_cycle_run, D.
  cbn [fst snd logged db]. auto.
Qed.

Lemma unresolvable_link_drops_all_witness :
  fst (check_for_new_meetings bracket_platform bracket_world info_center_url
         empty_store) = Return []
  /\ fst (run_check_cycle bracket_platform bracket_world None empty_store)
     = Return []
  /\ db (snd (run_check_cycle bracket_platform bracket_world None empty_store))
     = [].
Proof.
  apply (unresolvable_link_drops_all bracket_platform bracket_world None
           empty_store [reg_link; xyz_link; bracket_link] bracket_link
           (py "20260301-wrk")).
  - reflexivity.
  - right. right. left. reflexivity.
  - reflexivity.
  - intros [].
  - reflexivity.
Defined.

(** ** Which links are meeting links *)

Lemma span_spec (f : char -> bool) (s a b : str) :
  span f s = (a, b) -> s = a ++ b /\ forallb f a = true.
Proof.
  revert a b. induction s as [|c s IH]; intros a b H; simpl in H.
  - inversion H. auto.
  - destruct (f c) eqn:E.
    + destruct (span f s) as [a' b']. inversion H; subst.
      destruct (IH a' b eq_refl) as [-> Hf]. simpl. rewrite E. auto.
    + inversion H. auto.
Qed.

Lemma span_all (f : char -> bool) (a : str) (c : char) (t : str) :
  forallb f a = true -> f c = false -> span f (a ++ c :: t) = (a, c :: t).
Proof.
  intros Ha Hc. induction a as [|x a IH]; simpl.
  - now rewrite Hc.
  - simpl in Ha. apply andb_true_iff in Ha. destruct Ha as [Hx Ha].
    rewrite Hx, (IH Ha). reflexivity.
Qed.

Lemma firstn_app_exact {A} (n : nat) (l1 l2 : list A) :
  length l1 = n -> firstn n (l1 ++ l2) = l1.
Proof.
  intros <-. induction l1 as [|x l1 IH]; simpl; [now destruct l2|].
  now rewrite IH.
Qed.

Lemma skipn_app_cons {A} (n : nat) (l1 : list A) (x : A) (l2 : list A) :
  length l1 = n -> skipn (S n) (l1 ++ x :: l2) = l2.
Proof.
  intros <-. induction l1 as [|y l1 IH]; simpl; [reflexivity|exact IH].
Qed.

(** A match at the start of [s] is [/], an id of the shape, and [.htm]. *)
Lemma match_meeting_link_shape (P : Platform) (s g : str) :
  match_meeting_link P s = Some g ->
  exists digits code rest,
    g = digits ++ 45 :: code
    /\ id_shape P digits code
    /\ s = 47 :: g ++ py ".htm" ++ rest.
Proof.
  unfold match_meeting_link. destruct s as [|c r]; [discriminate|].
  unfold char_eqb. destruct (N.eqb_spec c 47) as [->|]; [|discriminate].
  destruct (Nat.eqb (length (firstn 8 r)) 8 && forallb (re_digit P) (firstn 8 r))
    eqn:E; [|discriminate].
  apply andb_true_iff in E. destruct E as [El Ed]. apply Nat.eqb_eq in El.
  destruct (skipn 8 r) as [|dash r2] eqn:Es; [discriminate|].
  destruct (N.eqb_spec dash 45) as [->|]; [|discriminate].
  destruct (span is_ascii_lower r2) as [code r3] eqn:Ep.
  destruct (span_spec _ _ _ _ Ep) as [-> Hlow].
  destruct code as [|a code]; [discriminate|].
  destruct (startswith (py ".htm") r3) eqn:Eh; [|discriminate].
  apply startswith_spec in Eh. destruct Eh as [rest ->].
  intros H. inversion H; subst. clear H.
  exists (firstn 8 r), (a :: code), rest.
  split; [reflexivity|split].
  - repeat split; try assumption. discriminate.
  - rewrite <- (firstn_skipn 8 r) at 1. rewrite Es.
    rewrite <- !app_assoc. reflexivity.
Qed.

Lemma match_meeting_link_complete (P : Platform) (digits code rest : str) :
  id_shape P digits code ->
  match_meeting_link P (47 :: (digits ++ 45 :: code) ++ py ".htm" ++ rest)
  = Some (digits ++ 45 :: code).
Proof.
  intros (Hl & Hd & Hne & Hlow).
  unfold match_meeting_link. change (char_eqb 47 47) with true. cbv iota.
  rewrite <- !app_assoc.
  rewrite firstn_app, skipn_app, Hl, Nat.sub_diag, firstn_O, skipn_O.
  rewrite app_nil_r, <- Hl, firstn_all, skipn_all, Hl.
  change (Nat.eqb 8 8) with true. rewrite Hd. cbn [andb app].
  change (char_eqb 45 45) with true. cbv iota.
  match goal with
  | |- context [span is_ascii_lower ?x] =>
      replace (span is_ascii_lower x) with (code, py ".htm" ++ rest)
        by (symmetry;
            exact (span_all is_ascii_lower code 46 (py "htm" ++ rest)
                     Hlow eq_refl))
  end.
  destruct code as [|a code]; [congruence|].
  replace (startswith (py ".htm") (py ".htm" ++ rest)) with true;
    [reflexivity|].
  symmetry. apply startswith_spec. now exists rest.
Qed.

Lemma search_meeting_link_found (P : Platform) (a s g : str) :
  match_meeting_link P s = Some g ->
  search_meeting_link P (a ++ s) <> None.
Proof.
  intros H. induction a as [|c a IH].
  - destruct s as [|c s]; [discriminate H|].
    cbn [app]. rewrite search_meeting_link_cons, H. discriminate.
  - cbn [app]. rewrite search_meeting_link_cons.
    destruct (match_meeting_link P (c :: a ++ s)); [discriminate|exact IH].
Qed.

Lemma search_meeting_link_shape (P : Platform) (s g : str) :
  search_meeting_link P s = Some g ->
  exists before digits code rest,
    g = digits ++ 45 :: code
    /\ id_shape P digits code
    /\ s = before ++ 47 :: g ++ py ".htm" ++ rest.
Proof.
  induction s as [|c s IH]; intros H.
  - discriminate H.
  - rewrite search_meeting_link_cons in H.
    destruct (match_meeting_link P (c :: s)) as [g'|] eqn:E.
    + inversion H; subst.
      destruct (match_meeting_link_shape P _ _ E) as (d & k & rest & Hg & Hs & Hu).
      exists [], d, k, rest. auto.
    + destruct (IH H) as (before & d & k & rest & Hg & Hs & Hu).
      exists (c :: before), d, k, rest. rewrite Hu. auto.
Qed.

(** X10: a link yields a meeting id exactly when it holds, somewhere, a
    slash, eight digits, a hyphen, lowercase letters and [.htm]; the id is
    then such digits, hyphen and letters, found in the link between a
    slash and [.htm], so its first eight characters are the digits and
    what follows the ninth is the code.  A link without a slash yields
    none. *)
Theorem meeting_id_characterized (P : Platform) (url : str) :
  (extract_meeting_id P url <> None <->
   exists before digits code rest,
     id_shape P digits code
     /\ url = before ++ 47 :: (digits ++ 45 :: code) ++ py ".htm" ++ rest)
  /\ (forall meeting_id,
        extract_meeting_id P url = Some meeting_id ->
        exists before digits code rest,
          id_shape P digits code
          /\ meeting_id = digits ++ 45 :: code
          /\ firstn 8 meeting_id = digits
          /\ skipn 9 meeting_id = code
          /\ url = before ++ 47 :: meeting_id ++ py ".htm" ++ rest)
  /\ (~ In 47 url -> extract_meeting_id P url = None).
Proof.
  unfold extract_meeting_id.
  assert (Shape : forall meeting_id,
            search_meeting_link P url = Some meeting_id ->
            exists before digits code rest,
              id_shape P digits code
              /\ meeting_id = digits ++ 45 :: code
              /\ firstn 8 meeting_id = digits
              /\ skipn 9 meeting_id = code
              /\ url = before ++ 47 :: meeting_id ++ py ".htm" ++ rest).
  { intros g H.
    destruct (search_meeting_link_shape P url g H)
      as (before & d & k & rest & Hg & Hs & Hu).
    exists before, d, k, rest. split; [exact Hs|split; [exact Hg|]].
    destruct Hs as (Hl & _). subst g. split; [|split; [|exact Hu]].
    - now apply firstn_app_exact.
    - now apply (skipn_app_cons 8). }
  split; [split|split].
  - intros H. destruct (search_meeting_link P url) as [g|] eqn:E; [|congruence].
    destruct (Shape g eq_refl) as (before & d & k & rest & Hs & Hg & _ & _ & Hu).
    exists before, d, k, rest. subst g. auto.
  - intros (before & d & k & rest & Hs & Hurl). rewrite Hurl.
    apply (search_meeting_link_found P before _ (d ++ 45 :: k)).
    now apply match_meeting_link_complete.
  - exact Shape.
  - intros Hno. destruct (search_meeting_link P url) as [g|] eqn:E;
      [|reflexivity].
    destruct (Shape g eq_refl) as (before & d & k & rest & _ & _ & _ & _ & Hu).
    exfalso. apply Hno. rewrite Hu. apply in_or_app. right. now left.
Qed.

Lemma meeting_id_characterized_witness :
  extract_meeting_id ascii_platform
    (py "https://www.austintexas.gov/department/20260122-reg.htm#top") <> None
  /\ extract_meeting_id ascii_platform (py "20260122-reg.htm") = None.
Proof.
  split.
  - apply (proj1 (meeting_id_characterized ascii_platform _)).
    exists (py "https://www.austintexas.gov/department"),
           (py "20260122"), (py "reg"), (py "#top").
    split; [|reflexivity].
    repeat split; try reflexivity. discriminate.
  - apply (proj2 (proj2 (meeting_id_characterized ascii_platform _))).
    vm_compute. intuition discriminate.
Defined.

(** X11: the id of a link is that of its leftmost meeting link: what stands
    before it and holds no match is skipped, what stands behind it is not
    looked at. *)
Theorem leftmost_meeting_link_wins (P : Platform) (before digits code rest : str) :
  search_meeting_link P before = None ->
  id_shape P digits code ->
  extract_meeting_id P
    (before ++ 47 :: (digits ++ 45 :: code) ++ py ".htm" ++ rest)
  = Some (digits ++ 45 :: code).
Proof.
  intros Hb Hs. unfold extract_meeting_id.
  rewrite (search_meeting_link_app P before _ Hb).
  rewrite search_meeting_link_cons.
  match goal with
  | |- context [match_meeting_link P ?x] =>
      replace (match_meeting_link P x) with (Some (digits ++ 45 :: code))
        by (symmetry; exact (match_meeting_link_complete P digits code rest Hs))
  end.
  reflexivity.
Qed.

Lemma leftmost_meeting_link_wins_witness :
  extract_meeting_id ascii_platform
    (py "/archive" ++ 47 :: (py "20250101" ++ 45 :: py "wrk") ++ py ".htm"
                   ++ py "?next=/20260122-reg.htm")
  = Some (py "20250101" ++ 45 :: py "wrk").
Proof.
  apply leftmost_meeting_link_wins.
  - reflexivity.
  - repeat split; try reflexivity. discriminate.
Defined.

(** ** The fallback summary, its size and its edge *)

Lemma concat_length_bound {A} (f : A -> str) (k : nat) (l : list A) :
  (forall x, In x l -> (length (f x) <= k)%nat) ->
  (length (concat (map f l)) <= length l * k)%nat.
Proof.
  induction l as [|x l IH]; intros H; simpl; [lia|].
  rewrite length_app.
  assert (length (f x) <= k)%nat by (apply H; now left).
  assert (length (concat (map f l)) <= length l * k)%nat
    by (apply IH; intros y Hy; apply H; now right).
  lia.
Qed.

Lemma enumerate_length {A} (i : N) (l : list A) :
  length (enumerate i l) = length l.
Proof.
  revert i. induction l as [|x l IH]; intros i; simpl; [reflexivity|].
  now rewrite IH.
Qed.

Lemma bullet_length (i : N) (line : str) :
  1 <= i <= 5 -> (length (bullet i line) <= 157)%nat.
Proof.
  intros Hi. unfold bullet. rewrite !length_app.
  pose proof (firstn_le_length 150 line) as Hf.
  assert (length (str_of_N i) = 1%nat) as ->.
  { assert (i = 1 \/ i = 2 \/ i = 3 \/ i = 4 \/ i = 5) as C by lia.
    destruct C as [->|[->|[->|[->| ->]]]]; reflexivity. }
  change (length (py ". ")) with 2%nat.
  change (length (py "...")) with 3%nat.
  change (length [LF]) with 1%nat. lia.
Qed.

(** X12: the fallback summary is never longer than 886 characters, however
    long the text, so the first 1000 characters a webhook message takes of
    it are the whole of it. *)
Theorem fallback_summary_bounded (text : str) :
  (length (_simple_summary text) <= 886)%nat
  /\ firstn 1000 (_simple_summary text) = _simple_summary text
  /\ forall data agenda_url,
       embed_summary
         (discord_message {| info_data := data;
                             info_agenda_url := agenda_url;
                             info_summary := _simple_summary text |})
       = _simple_summary text.
Proof.
  assert (B : (length (_simple_summary text) <= 886)%nat).
  { rewrite simple_summary_spec. unfold fallback_summary_spec.
    rewrite !length_app.
    change (length heading) with 21%nat.
    change (length disclaimer) with 80%nat.
    pose proof (concat_length_bound
                  (fun il : N * str => bullet (fst il) (snd il)) 157
                  (enumerate 1 (firstn 5 (kept_lines text)))) as Hc.
    rewrite enumerate_length in Hc.
    pose proof (firstn_le_length 5 (kept_lines text)) as Hn.
    assert (length (concat
                      (map (fun il : N * str => bullet (fst il) (snd il))
                         (enumerate 1 (firstn 5 (kept_lines text)))))
            <= length (firstn 5 (kept_lines text)) * 157)%nat.
    { apply Hc. intros [i line] Hin. cbn [fst snd].
      apply bullet_length. apply enumerate_bounds in Hin.
      destruct Hin as (H1 & H2 & _). lia. }
    nia. }
  assert (F : firstn 1000 (_simple_summary text) = _simple_summary text)
    by (apply firstn_all2; lia).
  split; [exact B|split; [exact F|]].
  intros data agenda_url. unfold discord_message.
  cbn [embed_summary info_summary]. exact F.
Qed.

(** X13: a text with no line longer than 20 characters once trimmed, the
    empty text among them, gives the heading and the disclaimer with no
    item between them. *)
Theorem fallback_summary_without_items (text : str) :
  (forall line, In line (split_lines text) ->
                (length (strip line) <= 20)%nat) ->
  _simple_summary text = heading ++ disclaimer.
Proof.
  intros H. rewrite simple_summary_spec. unfold fallback_summary_spec.
  assert (K : kept_lines text = []).
  { unfold kept_lines.
    assert (G : forall l : list str,
              (forall line, In line l -> (length (strip line) <= 20)%nat) ->
              filter (fun line => Nat.ltb 20 (length line)) (map strip l) = []).
    { induction l as [|x l IH]; intros Hl; simpl; [reflexivity|].
      assert (length (strip x) <= 20)%nat as Hx by (apply Hl; now left).
      apply Nat.ltb_ge in Hx. rewrite Hx. apply IH.
      intros line Hin. apply Hl. now right. }
    now apply G. }
  rewrite K. reflexivity.
Qed.

Lemma fallback_summary_without_items_witness :
  _simple_summary [] = heading ++ disclaimer
  /\ _simple_summary short_lines = heading ++ disclaimer.
Proof.
  split; apply fallback_summary_without_items; intros line H;
    vm_compute in H;
    repeat (destruct H as [<-|H]; [vm_compute; repeat constructor|]);
    destruct H.
Defined.

(** ** The text of a document *)

(** X14: the text of a document is the text of its pages in page order,
    a page without text adding nothing; with no extraction library every
    document that can be downloaded ends in the summary that says no text
    could be extracted. *)
Theorem document_text_in_page_order (W : World) (pdf : bytes) :
  (PDF_LIBRARY W = pymupdf ->
   extract_text_from_pdf W pdf = option_map (@concat char) (fitz_pages W pdf))
  /\ (PDF_LIBRARY W = pdfplumber ->
      extract_text_from_pdf W pdf
      = option_map
          (fun pages =>
             concat (map (fun page => match page with
                                      | Some t => t
                                      | None => []
                                      end) pages))
          (plumber_pages W pdf))
  /\ (PDF_LIBRARY W = no_pdf_library ->
      extract_text_from_pdf W pdf = None
      /\ forall c u, get_content W (c :: u) = Some pdf ->
                     summary_of W (Some (c :: u)) = NO_TEXT).
Proof.
  unfold extract_text_from_pdf. split; [|split]; intros E; rewrite E.
  - unfold _extract_with_pymupdf.
    destruct (fitz_pages W pdf) as [pages|]; [|reflexivity].
    unfold option_map. f_equal.
    etransitivity;
      [exact (fold_left_append (fun page : str => page) pages [])|].
    cbn [app]. now rewrite map_id.
  - unfold _extract_with_pdfplumber.
    destruct (plumber_pages W pdf) as [pages|]; [|reflexivity].
    unfold option_map. f_equal.
    etransitivity;
      [exact (fold_left_append
                (fun page : option str =>
                   match page with Some (c :: t) => c :: t | _ => [] end)
                pages [])|].
    cbn [app]. f_equal. apply map_ext.
    intros [[|c t]|]; reflexivity.
  - split; [reflexivity|]. intros c u Hc. unfold summary_of.
    rewrite Hc. unfold extract_text_from_pdf. rewrite E. reflexivity.
Qed.

Lemma document_text_in_page_order_witness :
  extract_text_from_pdf demo_world []
  = option_map (@concat char) (fitz_pages demo_world []).
Proof.
  apply (proj1 (document_text_in_page_order demo_world [])). reflexivity.
Defined.

(** ** Where candidates come from *)

Lemma discover_origin (P : Platform) (table : list Row) (url : str)
    (links : list Link) :
  forall acc ms,
    discover P table url links acc = Some ms ->
    (length ms <= length acc + length links)%nat
    /\ forall m, In m ms ->
         In m acc
         \/ exists link,
              In link links
              /\ extract_meeting_id P (link_href link) = Some (m_id m)
              /\ urljoin P url (link_href link) = Some (m_url m)
              /\ m_date m = format_date P (firstn 8 (m_id m))
              /\ m_meeting_type m = format_meeting_type P (skipn 9 (m_id m))
              /\ m_link_text m = strip (link_get_text link).
Proof.
  induction links as [|link links IH]; intros acc ms H; simpl in H.
  - inversion H; subst. split; [simpl; lia|auto].
  - assert (Step : forall acc',
              discover P table url links acc' = Some ms ->
              (length acc' <= length acc + 1)%nat ->
              (forall m, In m acc' ->
                 In m acc
                 \/ (extract_meeting_id P (link_href link) = Some (m_id m)
                     /\ urljoin P url (link_href link) = Some (m_url m)
                     /\ m_date m = format_date P (firstn 8 (m_id m))
                     /\ m_meeting_type m
                        = format_meeting_type P (skipn 9 (m_id m))
                     /\ m_link_text m = strip (link_get_text link))) ->
              (length ms <= length acc + length (link :: links))%nat
              /\ forall m, In m ms ->
                   In m acc
                   \/ exists l,
                        In l (link :: links)
                        /\ extract_meeting_id P (link_href l) = Some (m_id m)
                        /\ urljoin P url (link_href l) = Some (m_url m)
                        /\ m_date m = format_date P (firstn 8 (m_id m))
                        /\ m_meeting_type m
                           = format_meeting_type P (skipn 9 (m_id m))
                        /\ m_link_text m = strip (link_get_text l)).
    { intros acc' H' Hlen Hacc. destruct (IH _ _ H') as [L O].
      split; [simpl; lia|].
      intros m Hm. destruct (O m Hm) as [Hin|(l & Hl & Hrest)].
      - destruct (Hacc m Hin) as [Ha|Hb]; [now left|].
        right. exists link. split; [now left|exact Hb].
      - right. exists l. split; [now right|exact Hrest]. }
    destruct (extract_meeting_id P (link_href link)) as [i|] eqn:Ei.
    + destruct (existsb (has_id i) table).
      * apply (Step acc H); [lia|auto].
      * destruct (urljoin P url (link_href link)) as [full|] eqn:Ej;
          [|discriminate].
        apply (Step _ H).
        -- rewrite length_app. simpl. lia.
        -- intros m Hm. apply in_app_or in Hm.
           destruct Hm as [Hm|[Hm|[]]]; [now left|].
           right. subst m. cbn [m_id m_url m_date m_meeting_type m_link_text].
           auto.
    + apply (Step acc H); [lia|auto].
Qed.

(** X15: every candidate of a discovery comes from a link of the listing
    page: its id is the id of that link and is not in the store, its URL
    the link resolved against the listing, its date and type are read
    from the id, its text is the link's text trimmed; there are no more
    candidates than links. *)
Theorem candidates_come_from_links (P : Platform) (W : World) (st : State)
    (candidates : list Meeting) (m : Meeting) :
  fst (check_for_new_meetings P W info_center_url st) = Return candidates ->
  In m candidates ->
  exists links link,
    get_page W info_center_url = Some links
    /\ (length candidates <= length links)%nat
    /\ In link links
    /\ extract_meeting_id P (link_href link) = Some (m_id m)
    /\ ~ In (m_id m) (ids (db st))
    /\ urljoin P info_center_url (link_href link) = Some (m_url m)
    /\ m_date m = format_date P (firstn 8 (m_id m))
    /\ m_meeting_type m = format_meeting_type P (skipn 9 (m_id m))
    /\ m_link_text m = strip (link_get_text link).
Proof.
  intros Hc Hm.
  rewrite check_for_new_meetings_run in Hc. cbn [fst] in Hc.
  injection Hc as Hd. subst candidates.
  pose proof (discovered_fresh P W info_center_url (db st) m Hm) as Hfresh.
  unfold discovered in Hm |- *.
  destruct (get_page W info_center_url) as [links|]; [|destruct Hm].
  destruct (discover P (db st) info_center_url links []) as [ms|] eqn:E;
    [|destruct Hm].
  destruct (discover_origin P _ _ _ _ _ E) as [L O].
  destruct (O m Hm) as [[]|(link & Hl & Hi & Hj & Hdate & Hty & Htx)].
  exists links, link. simpl in L. auto 10.
Qed.

Lemma candidates_come_from_links_witness :
  exists links link,
    get_page demo_world info_center_url = Some links
    /\ (2 <= length links)%nat
    /\ In link links
    /\ extract_meeting_id ascii_platform (link_href link)
       = Some (m_id xyz_meeting).
Proof.
  destruct (candidates_come_from_links ascii_platform demo_world empty_store
              [reg_meeting; xyz_meeting] xyz_meeting eq_refl
              (or_intror (or_introl eq_refl)))
    as (links & link & Hp & Hlen & Hin & Hid & _).
  exists links, link. auto.
Defined.

(** ** The date of a candidate *)

Lemma ascii_digit_cases (c : char) :
  is_ascii_digit c = true -> In c ascii_digits.
Proof.
  unfold is_ascii_digit. rewrite andb_true_iff, !N.leb_le. intros [H1 H2].
  assert (c = 48 \/ c = 49 \/ c = 50 \/ c = 51 \/ c = 52 \/ c = 53
          \/ c = 54 \/ c = 55 \/ c = 56 \/ c = 57) as C by lia.
  unfold ascii_digits. simpl. intuition auto.
Qed.

Lemma month_day_checked (P : Platform) :
  forallb (fun m1 => forallb (fun m2 => forallb (fun d1 => forallb (fun d2 =>
    month_day_check P m1 m2 d1 d2)
    ascii_digits) ascii_digits) ascii_digits) ascii_digits = true.
Proof. vm_compute. reflexivity. Qed.

Lemma two_checked (P : Platform) :
  forallb (fun a => forallb (fun b => two_check P a b) ascii_digits)
          ascii_digits = true.
Proof. vm_compute. reflexivity. Qed.

Lemma four_checked (P : Platform) :
  forallb (fun a => forallb (fun b => forallb (fun c => forallb (fun d =>
    four_check P a b c d)
    ascii_digits) ascii_digits) ascii_digits) ascii_digits = true.
Proof. vm_compute. reflexivity. Qed.

Lemma days_in_month_le (y m : N) : days_in_month y m <= 31.
Proof.
  unfold days_in_month.
  destruct (m =? 2); [destruct (is_leap y); lia|].
  destruct ((m =? 4) || (m =? 6) || (m =? 9) || (m =? 11)); lia.
Qed.

Lemma re_digit_ascii (P : Platform) (c : char) :
  is_ascii_digit c = true -> re_digit P c = true.
Proof. intros H. unfold re_digit. now rewrite H. Qed.

(** X16: for eight ASCII digits, the date of a candidate is the digits
    regrouped as year, month and day with hyphens between, exactly when
    they name a day of the calendar (month 1 to 12, day 1 to the length of
    that month, leap years counted, year not 0); otherwise it is the
    eight digits as they stand. *)
Theorem format_date_of_digits (P : Platform) (y1 y2 y3 y4 m1 m2 d1 d2 : char) :
  forallb is_ascii_digit [y1; y2; y3; y4; m1; m2; d1; d2] = true ->
  format_date P [y1; y2; y3; y4; m1; m2; d1; d2]
  = if (1 <=? four_value y1 y2 y3 y4)
       && (1 <=? two_value m1 m2) && (two_value m1 m2 <=? 12)
       && (1 <=? two_value d1 d2)
       && (two_value d1 d2
           <=? days_in_month (four_value y1 y2 y3 y4) (two_value m1 m2))
    then (if four_value y1 y2 y3 y4 <? 1000
          then strftime_small_year P (four_value y1 y2 y3 y4)
          else [y1; y2; y3; y4])
         ++ [45; m1; m2; 45; d1; d2]
    else [y1; y2; y3; y4; m1; m2; d1; d2].
Proof.
  cbn [forallb]. rewrite !andb_true_iff.
  intros (Hy1 & Hy2 & Hy3 & Hy4 & Hm1 & Hm2 & Hd1 & Hd2 & _).
  pose proof (month_day_checked P) as MD.
  rewrite forallb_forall in MD.
  specialize (MD m1 (ascii_digit_cases _ Hm1)). rewrite forallb_forall in MD.
  specialize (MD m2 (ascii_digit_cases _ Hm2)). rewrite forallb_forall in MD.
  specialize (MD d1 (ascii_digit_cases _ Hd1)). rewrite forallb_forall in MD.
  specialize (MD d2 (ascii_digit_cases _ Hd2)).
  pose proof (two_checked P) as TM. rewrite forallb_forall in TM.
  pose proof (TM d1 (ascii_digit_cases _ Hd1)) as TD.
  specialize (TM m1 (ascii_digit_cases _ Hm1)).
  rewrite forallb_forall in TM, TD.
  specialize (TM m2 (ascii_digit_cases _ Hm2)).
  specialize (TD d2 (ascii_digit_cases _ Hd2)).
  pose proof (four_checked P) as FY. rewrite forallb_forall in FY.
  specialize (FY y1 (ascii_digit_cases _ Hy1)). rewrite forallb_forall in FY.
  specialize (FY y2 (ascii_digit_cases _ Hy2)). rewrite forallb_forall in FY.
  specialize (FY y3 (ascii_digit_cases _ Hy3)). rewrite forallb_forall in FY.
  specialize (FY y4 (ascii_digit_cases _ Hy4)).
  unfold two_check in TM, TD. unfold four_check in FY.
  apply andb_true_iff in TM. destruct TM as [TM1 TM2].
  apply andb_true_iff in TD. destruct TD as [TD1 TD2].
  apply andb_true_iff in FY. destruct FY as [FY1 FY2].
  apply N.eqb_eq in TM1, TD1, FY1.
  apply str_eqb_eq in TM2, TD2.
  set (y := four_value y1 y2 y3 y4) in *.
  set (m := two_value m1 m2) in *.
  set (d := two_value d1 d2) in *.
  pose proof (days_in_month_le y m) as Hdim.
  unfold format_date, strptime_Ymd, re_Y.
  rewrite !(re_digit_ascii P) by assumption. cbn [andb].
  unfold month_day_check in MD. fold m d in MD.
  destruct (month_then_day P re_m [m1; m2; d1; d2])
    as [[[ms ds] [|x r]]|].
  - apply andb_true_iff in MD. destruct MD as [MD Eds].
    apply andb_true_iff in MD. destruct MD as [Hok Ems].
    apply str_eqb_eq in Eds, Ems. subst ms ds.
    rewrite TM1, TD1, FY1.
    rewrite !andb_true_iff in Hok.
    destruct Hok as [[[Hm_lo Hm_hi] Hd_lo] _].
    rewrite Hm_lo, Hm_hi. cbn [andb].
    replace ((1 <=? y) && (1 <=? d) && (d <=? days_in_month y m))
      with ((1 <=? y) && true && true && (1 <=? d)
            && (d <=? days_in_month y m))
      by (now rewrite !andb_true_r).
    rewrite !andb_true_r.
    destruct ((1 <=? y) && (1 <=? d) && (d <=? days_in_month y m));
      [|reflexivity].
    unfold strftime_Y_m_d. rewrite TM2, TD2.
    destruct (y <? 1000) eqn:Ey.
    + reflexivity.
    + destruct (49 <=? y1).
      * apply andb_true_iff in FY2. destruct FY2 as [FY2 _].
        apply str_eqb_eq in FY2. rewrite FY2. reflexivity.
      * congruence.
  - apply negb_true_iff in MD.
    assert (E : (1 <=? y) && (1 <=? m) && (m <=? 12) && (1 <=? d)
                && (d <=? days_in_month y m) = false).
    { destruct (N.leb_spec 1 y), (N.leb_spec 1 m), (N.leb_spec m 12),
        (N.leb_spec 1 d), (N.leb_spec d (days_in_month y m)),
        (N.leb_spec d 31); try reflexivity; simpl in MD; try discriminate;
        lia. }
    rewrite E. reflexivity.
  - apply negb_true_iff in MD.
    assert (E : (1 <=? y) && (1 <=? m) && (m <=? 12) && (1 <=? d)
                && (d <=? days_in_month y m) = false).
    { destruct (N.leb_spec 1 y), (N.leb_spec 1 m), (N.leb_spec m 12),
        (N.leb_spec 1 d), (N.leb_spec d (days_in_month y m)),
        (N.leb_spec d 31); try reflexivity; simpl in MD; try discriminate;
        lia. }
    rewrite E. reflexivity.
Qed.

Lemma format_date_of_digits_witness :
  format_date ascii_platform (py "20240229") = py "2024-02-29"
  /\ format_date ascii_platform (py "20260229") = py "20260229"
  /\ format_date ascii_platform (py "20261301") = py "20261301".
Proof.
  split; [|split].
  - exact (format_date_of_digits ascii_platform 50 48 50 52 48 50 50 57
             eq_refl).
  - exact (format_date_of_digits ascii_platform 50 48 50 54 48 50 50 57
             eq_refl).
  - exact (format_date_of_digits ascii_platform 50 48 50 54 49 51 48 49
             eq_refl).
Defined.

(** ** The statistics of the dashboard *)

Lemma str_compare_eq (a b : str) : str_compare a b = Eq <-> a = b.
Proof.
  split; [|intros ->; apply str_compare_refl].
  revert b. induction a as [|x a IH]; intros [|y b]; simpl;
    try discriminate; [reflexivity|].
  destruct (N.compare_spec x y) as [->| |]; try discriminate.
  intros H. now rewrite (IH b H).
Qed.

Lemma str_compare_lt_trans (a b c : str) :
  str_compare a b = Lt -> str_compare b c = Lt -> str_compare a c = Lt.
Proof.
  intros Hab Hbc.
  destruct (str_compare a c) eqn:Eac; [| reflexivity |]; exfalso.
  - apply str_compare_eq in Eac. subst c.
    rewrite (str_compare_antisym a b), Hab in Hbc. discriminate Hbc.
  - apply (str_compare_not_lt_trans b a c).
    + rewrite (str_compare_antisym a b), Hab. discriminate.
    + rewrite Eac. discriminate.
    + exact Hbc.
Qed.

Lemma count_type_sum (ty : str) (groups : list (str * nat)) :
  list_sum (map snd (count_type ty groups)) = S (list_sum (map snd groups)).
Proof.
  induction groups as [|[k n] rest IH]; simpl; [reflexivity|].
  destruct (str_compare ty k); simpl; [reflexivity|reflexivity|].
  rewrite IH. lia.
Qed.

Lemma count_type_keys (ty k : str) (groups : list (str * nat)) :
  In k (map fst (count_type ty groups)) <-> k = ty \/ In k (map fst groups).
Proof.
  induction groups as [|[k' n] rest IH]; simpl.
  - intuition congruence.
  - destruct (str_compare ty k') eqn:E; simpl.
    + apply str_compare_eq in E. subst. intuition congruence.
    + intuition congruence.
    + rewrite IH. intuition congruence.
Qed.

(** The keys of the groups come in ascending order. *)
Lemma count_type_ascending (ty : str) (groups : list (str * nat)) :
  StronglySorted (fun a b => str_compare (fst a) (fst b) = Lt) groups ->
  StronglySorted (fun a b => str_compare (fst a) (fst b) = Lt)
                 (count_type ty groups).
Proof.
  induction groups as [|[k n] rest IH]; intros S; simpl.
  - repeat constructor.
  - inversion S as [|a l S' F]; subst.
    destruct (str_compare ty k) eqn:E.
    + constructor; [exact S'|exact F].
    + constructor; [exact S|]. constructor; [exact E|].
      rewrite Forall_forall in *. intros x Hx. cbn [fst].
      apply (str_compare_lt_trans ty k (fst x) E). now apply F.
    + constructor; [now apply IH|].
      rewrite Forall_forall in *. intros [k' n'] Hx. cbn [fst].
      assert (In k' (map fst (count_type ty rest))) as Hk
        by (apply (in_map fst) in Hx; exact Hx).
      apply count_type_keys in Hk. destruct Hk as [->|Hk].
      * rewrite (str_compare_antisym ty k), E. reflexivity.
      * apply in_map_iff in Hk. destruct Hk as ([k'' n''] & Hf & Hin).
        cbn [fst] in Hf. subst k''. apply (F _ Hin).
Qed.

Lemma count_of_absent (ty : str) (groups : list (str * nat)) :
  ~ In ty (map fst groups) -> count_of ty groups = 0%nat.
Proof.
  induction groups as [|[k n] rest IH]; simpl; [reflexivity|].
  intros H. destruct (str_eqb k ty) eqn:E.
  - apply str_eqb_eq in E. exfalso. apply H. now left.
  - apply IH. intros Hin. apply H. now right.
Qed.

Lemma ascending_keys_distinct (groups : list (str * nat)) :
  StronglySorted (fun a b => str_compare (fst a) (fst b) = Lt) groups ->
  NoDup (map fst groups).
Proof.
  induction groups as [|[k n] rest IH]; intros S; simpl; [constructor|].
  inversion S as [|a l S' F]; subst. constructor; [|now apply IH].
  intros Hin. apply in_map_iff in Hin. destruct Hin as ([k' n'] & Hf & Hin).
  cbn [fst] in Hf. subst k'. rewrite Forall_forall in F.
  specialize (F _ Hin). cbn [fst] in F. rewrite str_compare_refl in F.
  discriminate F.
Qed.

Lemma count_of_count_type (ty ty' : str) (groups : list (str * nat)) :
  StronglySorted (fun a b => str_compare (fst a) (fst b) = Lt) groups ->
  count_of ty' (count_type ty groups)
  = (count_of ty' groups + if str_eqb ty ty' then 1 else 0)%nat.
Proof.
  induction groups as [|[k n] rest IH]; intros S; simpl.
  - destruct (str_eqb ty ty'); reflexivity.
  - inversion S as [|a l S' F]; subst.
    destruct (str_compare ty k) eqn:E; simpl.
    + apply str_compare_eq in E. subst k.
      destruct (str_eqb ty ty'); lia.
    + destruct (str_eqb ty ty') eqn:Et; [|lia].
      apply str_eqb_eq in Et. subst ty'.
      assert (count_of ty ((k, n) :: rest) = 0%nat) as Z.
      { apply count_of_absent. simpl. intros [Hk|Hin].
        - subst k. rewrite str_compare_refl in E. discriminate E.
        - apply in_map_iff in Hin. destruct Hin as ([k' n'] & Hf & Hin).
          cbn [fst] in Hf. subst k'. rewrite Forall_forall in F.
          specialize (F _ Hin). cbn [fst] in F.
          pose proof (str_compare_lt_trans ty k ty E F) as C.
          rewrite str_compare_refl in C. discriminate C. }
      simpl in Z. rewrite Z. reflexivity.
    + destruct (str_eqb k ty') eqn:Ek.
      * apply str_eqb_eq in Ek. subst ty'.
        destruct (str_eqb ty k) eqn:Et; [|lia].
        apply str_eqb_eq in Et. subst k.
        rewrite str_compare_refl in E. discriminate E.
      * now apply IH.
Qed.

Lemma group_by_fold (table : list Row) :
  forall groups,
    StronglySorted (fun a b => str_compare (fst a) (fst b) = Lt) groups ->
    let result :=
      fold_left (fun g r => count_type (row_meeting_type r) g) table groups in
    StronglySorted (fun a b => str_compare (fst a) (fst b) = Lt) result
    /\ list_sum (map snd result)
       = (list_sum (map snd groups) + length table)%nat
    /\ (forall ty,
          count_of ty result
          = (count_of ty groups
             + length (filter (fun r => str_eqb (row_meeting_type r) ty)
                              table))%nat)
    /\ (forall k n, (forall k' n', In (k', n') groups -> (1 <= n')%nat) ->
                    In (k, n) result -> (1 <= n)%nat).
Proof.
  induction table as [|r table IH]; intros groups S; simpl.
  - repeat split; try lia; auto.
    intros k n H Hin. exact (H k n Hin).
  - destruct (IH (count_type (row_meeting_type r) groups)
                (count_type_ascending _ _ S)) as (S' & Hsum & Hcount & Hpos).
    split; [exact S'|split; [|split]].
    + rewrite Hsum, count_type_sum. lia.
    + intros ty. rewrite Hcount, (count_of_count_type _ _ _ S).
      destruct (str_eqb (row_meeting_type r) ty); simpl; lia.
    + intros k n H Hin. apply (Hpos k n); [|exact Hin].
      clear -H. induction groups as [|[k0 n0] rest IHg]; simpl.
      * intros k' n' [E|[]]. inversion E. lia.
      * destruct (str_compare (row_meeting_type r) k0); simpl.
        -- intros k' n' [E|Hin]; [inversion E; lia|].
           apply (H k' n'). now right.
        -- intros k' n' [E|Hin]; [inversion E; lia|]. now apply (H k' n').
        -- intros k' n' [E|Hin].
           ++ apply (H k' n'). now left.
           ++ apply (IHg (fun a b Hab => H a b (or_intror Hab)) k' n' Hin).
Qed.

(** X17: the statistics of the dashboard agree with the table: the total
    is the number of rows, the meetings with an agenda are no more than
    the total, every meeting type of the table is counted once, under one
    key, with the number of rows of that type, no count is zero, and the
    counts add up to the total. *)
Theorem dashboard_statistics (table : list Row) :
  get_stats None = None
  /\ exists s,
       get_stats (Some table) = Some s
       /\ total_meetings s = length table
       /\ (with_agendas s <= total_meetings s)%nat
       /\ NoDup (map fst (meeting_types s))
       /\ (forall ty,
             count_of ty (meeting_types s)
             = length (filter (fun r => str_eqb (row_meeting_type r) ty)
                              table))
       /\ (forall k n, In (k, n) (meeting_types s) -> (1 <= n)%nat)
       /\ list_sum (map snd (meeting_types s)) = total_meetings s.
Proof.
  split; [reflexivity|]. eexists. split; [reflexivity|].
  cbn [total_meetings with_agendas meeting_types].
  destruct (group_by_fold table [] (SSorted_nil _)) as (S & Hsum & Hcount & Hpos).
  split; [reflexivity|split; [apply filter_length_le|]].
  split; [now apply ascending_keys_distinct|split; [|split]].
  - intros ty. apply Hcount.
  - intros k n. apply Hpos. intros k' n' [].
  - exact Hsum.
Qed.






(** ** The search of the dashboard *)







(** X20: without a limit, or with the limit 0, the dashboard lists every
    row its search keeps, each once, newest first and rows of one date in
    the order of their insertion; without a database file it lists
    nothing. *)
Theorem unlimited_listing_is_complete (table : list Row)
    (limit : option Z) (search_term : option str) :
  limit = None \/ limit = Some 0%Z ->
  get_meetings None limit search_term = []
  /\ exists rows,
       get_meetings (Some table) limit search_term = map select_columns rows
       /\ Permutation rows (searched search_term table)
       /\ (forall x y, precedes x y rows -> newer_or_same x y)
       /\ (forall x y, precedes x y rows -> row_date x = row_date y ->
                       precedes x y table).
Proof.
  intros Hl. split; [reflexivity|].
  exists (order_by_date_desc (searched search_term table)).
  split; [|split; [|split]].
  - unfold get_meetings, searched.
    destruct Hl as [->| ->]; destruct search_term as [[|c t]|]; reflexivity.
  - apply order_by_date_desc_perm.
  - intros x y. apply sorted_precedes, order_by_date_desc_sorted.
  - intros x y H E. apply order_by_date_desc_stable in H; [|exact E].
    unfold searched in H. destruct search_term as [[|c t]|]; try exact H.
    now apply precedes_filter in H.
Qed.

Lemma unlimited_listing_is_complete_witness :
  map v_id (get_meetings (Some demo_table) (Some 0%Z) None)
  = [py "20260205-wrk"; py "20260122-reg"; py "20260122-xyz"]
  /\ exists rows,
       get_meetings (Some demo_table) (Some 0%Z) None = map select_columns rows
       /\ Permutation rows demo_table.
Proof.
  split; [reflexivity|].
  destruct (proj2 (unlimited_listing_is_complete demo_table (Some 0%Z) None
                     (or_intror eq_refl))) as (rows & E & Hp & _).
  exists rows. split; [exact E|exact Hp].
Defined.

(** ** What a meeting asks of the world *)

Lemma process_new_meeting_requests (P : Platform) (W : World) (m : Meeting)
    (st : State) :
  requests (snd (process_new_meeting P W m st))
  = requests st ++ requests_of P W m.
Proof.
  assert (Save : forall agenda summary (info : MeetingInfo) st1 l,
            requests st1 = requests st ++ l ->
            requests (snd ((save_meeting W m agenda summary ;;; ret info) st1))
            = requests st ++ l).
  { intros agenda summary info st1 l E.
    unfold bind, save_meeting, bind, isoformat_now, insert_row, ret.
    cbn [db clock requests row_id].
    destruct (existsb (has_id (m_id m)) (db st1)); exact E. }
  unfold process_new_meeting, requests_of.
  unfold bind at 1. rewrite get_agenda_url_run.
  destruct (agenda_of P W (m_url m)) as [[|c u]|].
  - unfold bind at 1. unfold ret at 1. apply Save. reflexivity.
  - unfold bind at 1. unfold bind at 1. unfold download_pdf, bind, send, ret.
    destruct (get_content W (c :: u)) as [pdf|].
    + destruct (extract_text_from_pdf W pdf) as [[|a t]|].
      * apply Save. cbn [requests logged]. rewrite <- app_assoc.
        destruct (gemini_model W); reflexivity.
      * unfold summarize_agenda.
        destruct (gemini_model W) as [g|].
        -- unfold bind, send.
           destruct (g (gemini_prompt (a :: t))); apply Save;
             cbn [requests logged]; rewrite <- !app_assoc; reflexivity.
        -- apply Save. cbn [requests logged]. rewrite <- app_assoc.
           reflexivity.
      * apply Save. cbn [requests logged]. rewrite <- app_assoc.
        reflexivity.
    + apply Save. cbn [requests logged]. rewrite <- app_assoc. reflexivity.
  - unfold bind at 1. unfold ret at 1. apply Save. reflexivity.
Qed.

(** X21: processing a meeting, whatever it ends in, first fetches the
    meeting page and makes at most two requests more: the download, only
    when the page named an agenda, and then one call of the backend, only
    when one is configured; the prompt of that call is the instructions
    and at most 100,000 characters. *)
Theorem requests_of_one_meeting (P : Platform) (W : World) (m : Meeting)
    (st : State) :
  exists more,
    requests (snd (process_new_meeting P W m st))
    = requests st ++ HttpGet (m_url m) :: more
    /\ (length more <= 2)%nat
    /\ (truthy (agenda_of P W (m_url m)) = false -> more = [])
    /\ (forall prompt, In (GenerateContent prompt) more ->
          gemini_model W <> None
          /\ (exists text, prompt = instructions ++ text)
          /\ (length prompt <= 207 + 100 * 1000)%nat)
    /\ (forall url message, ~ In (WebhookPost url message) more).
Proof.
  rewrite process_new_meeting_requests. unfold requests_of.
  eexists. split; [reflexivity|].
  assert (Plain : forall more : list Request,
            (length more <= 2)%nat ->
            (truthy (agenda_of P W (m_url m)) = false -> more = []) ->
            (forall r, In r more -> exists url, r = HttpGet url) ->
            (length more <= 2)%nat
            /\ (truthy (agenda_of P W (m_url m)) = false -> more = [])
            /\ (forall prompt, In (GenerateContent prompt) more ->
                  gemini_model W <> None
                  /\ (exists text, prompt = instructions ++ text)
                  /\ (length prompt <= 207 + 100 * 1000)%nat)
            /\ (forall url message, ~ In (WebhookPost url message) more)).
  { intros more Hlen Hnone Hget. split; [exact Hlen|split; [exact Hnone|split]].
    - intros prompt Hin. destruct (Hget _ Hin) as (url & E). discriminate E.
    - intros url message Hin. destruct (Hget _ Hin) as (url' & E).
      discriminate E. }
  destruct (agenda_of P W (m_url m)) as [[|c u]|] eqn:Ea.
  - apply Plain; [simpl; lia|reflexivity|intros r []].
  - assert (Get1 : forall r, In r [HttpGet (c :: u)] -> exists url, r = HttpGet url)
      by (intros r [<-|[]]; eexists; reflexivity).
    destruct (get_content W (c :: u)) as [pdf|];
      [|apply Plain; [simpl; lia|discriminate|exact Get1]].
    destruct (extract_text_from_pdf W pdf) as [[|a t]|];
      destruct (gemini_model W) as [g|] eqn:Eg;
      try (apply Plain; [simpl; lia|discriminate|exact Get1]).
    cbn [truthy length]. split; [lia|split; [discriminate|split]].
    + intros prompt [H|[H|[]]]; [discriminate H|]. inversion H; subst.
      split; [discriminate|split].
      * unfold gemini_prompt. eexists. reflexivity.
      * unfold gemini_prompt. rewrite length_app.
        change (length instructions) with 207%nat.
        pose proof (firstn_le_length MAX_AGENDA_CHARS (a :: t)) as Hf.
        unfold MAX_AGENDA_CHARS in *. lia.
    + intros url message [H|[H|[]]]; discriminate H.
  - apply Plain; [simpl; lia|reflexivity|intros r []].
Qed.

(** ** A meeting listed twice *)

Lemma for_each_app {A B} (xs ys : list A) (body : B -> A -> M B) :
  forall (acc : B) (st : State),
    for_each (xs ++ ys) acc body st
    = match for_each xs acc body st with
      | (Return acc', st') => for_each ys acc' body st'
      | (Raise e, st') => (Raise e, st')
      end.
Proof.
  induction xs as [|x xs IH]; intros acc st; simpl; [reflexivity|].
  unfold bind. destruct (body acc x st) as [[acc'|e] st']; [apply IH|reflexivity].
Qed.

(** X22: when the candidates of a listing hold one id twice, the cycle
    raises [IntegrityError] at the second of the two: the candidates
    before it are saved, it and the candidates behind it are not. *)
Theorem repeated_id_raises (P : Platform) (W : World) (hook : option str)
    (st : State) (first rest : list Meeting) (again : Meeting) :
  fst (check_for_new_meetings P W info_center_url st)
  = Return (first ++ again :: rest) ->
  NoDup (map m_id first) ->
  In (m_id again) (map m_id first) ->
  fst (run_check_cycle P W hook st) = Raise IntegrityError
  /\ ids (db (snd (run_check_cycle P W hook st)))
     = ids (db st) ++ map m_id first.
Proof.
  intros Hc Hnd Hagain.
  rewrite check_for_new_meetings_run in Hc. cbn [fst] in Hc.
  injection Hc as Hd.
  rewrite run_check_cycle_run. rewrite Hd.
  assert (Hfresh : forall m, In m first ->
            ~ In (m_id m) (ids (db (logged (HttpGet info_center_url) st)))).
  { intros m Hm. cbn [db logged].
    apply (discovered_fresh P W info_center_url). rewrite Hd.
    apply in_or_app. now left. }
  destruct (cycle_all_appends P W hook first []
              (logged (HttpGet info_center_url) st) Hnd Hfresh)
    as (st1 & rows & R & D & C & _).
  assert (Hids : ids (db st1) = ids (db st) ++ map m_id first).
  { rewrite D. cbn [db logged]. unfold ids. rewrite map_app. f_equal.
    apply (f_equal (map fst)) in C. rewrite !map_map in C. exact C. }
  assert (Hknown : existsb (has_id (m_id again)) (db st1) = true).
  { apply existsb_has_id. rewrite Hids. apply in_or_app. now right. }
  destruct (cycle_step_known P W hook (map (info_of P W) first) again st1
              Hknown) as (st2 & R2 & D2).
  assert (Run : for_each (first ++ again :: rest) []
                  (cycle_step P W hook) (logged (HttpGet info_center_url) st)
                = (Raise IntegrityError, st2)).
  { rewrite for_each_app, R. cbn [app for_each]. unfold bind.
    rewrite R2. reflexivity. }
  destruct (first ++ again :: rest) as [|m ms] eqn:E.
  - destruct first; discriminate E.
  - rewrite Run. cbn [fst snd]. split; [reflexivity|].
    rewrite D2. exact Hids.
Qed.

Lemma repeated_id_raises_witness :
  fst (run_check_cycle ascii_platform repeated_link_world None empty_store)
  = Raise IntegrityError
  /\ ids (db (snd (run_check_cycle ascii_platform repeated_link_world None
                     empty_store)))
     = [py "20260122-reg"].
Proof.
  apply (repeated_id_raises ascii_platform repeated_link_world None
           empty_store [reg_meeting] [xyz_meeting] reg_meeting).
  - reflexivity.
  - repeat constructor. intros [].
  - left. reflexivity.
Defined.
